(** * InvenTree: plugin models and part URL routes

    A shallow embedding of [InvenTree/plugin/models.py] and
    [InvenTree/part/urls.py].

    Python objects are records, dictionaries are finite maps, exceptions are
    values of [exn] carried by [result], and the two process-wide objects the
    models talk to (the database and the plugin registry) are threaded
    explicitly through a [World]. *)

From Stdlib Require Import ZArith String Ascii List Bool Lia.
From stdpp Require Import base option gmap strings list fin_maps pretty.

Open Scope string_scope.
Open Scope list_scope.

(** ** Python values *)

(** The values that reach the modelled code as field values, keyword
    arguments and plugin attributes.  [PyObj text] is any other object; [text]
    is what [str()] returns for it, and it is truthy like every plain
    instance. *)
Inductive pyval : Type :=
| PyNone
| PyBool (b : bool)
| PyInt (z : Z)
| PyStr (s : string)
| PyObj (text : string).

#[global] Instance pyval_eq_dec : EqDecision pyval.
Proof. solve_decision. Defined.

(** [str(v)] *)
Definition py_str (v : pyval) : string :=
  match v with
  | PyNone => "None"
  | PyBool true => "True"
  | PyBool false => "False"
  | PyInt z => pretty z
  | PyStr s => s
  | PyObj text => text
  end.

(** [bool(v)], the test made by [if v:] and [not v]. *)
Definition py_truthy (v : pyval) : bool :=
  match v with
  | PyNone => false
  | PyBool b => b
  | PyInt z => negb (Z.eqb z 0)
  | PyStr s => negb (String.eqb s "")
  | PyObj _ => true
  end.

(** [v is True] and [v is False]: identity with the two bool singletons. *)
Definition py_is_True (v : pyval) : bool :=
  match v with PyBool true => true | _ => false end.

Definition py_is_False (v : pyval) : bool :=
  match v with PyBool false => true | _ => false end.

(** ** Exceptions *)

Inductive exn : Type :=
| AttributeError
| ValueError
| UnicodeError          (* a subclass of ValueError *)
| TypeError
| KeyError
| ValidationError
| NotImplementedError
| DatabaseError
| IntegrityError.       (* a subclass of DatabaseError *)

#[global] Instance exn_eq_dec : EqDecision exn.
Proof. solve_decision. Defined.

(** The classes an exception is an instance of (below [Exception]). *)
Definition exn_classes (e : exn) : list exn :=
  match e with
  | UnicodeError => [UnicodeError; ValueError]
  | IntegrityError => [IntegrityError; DatabaseError]
  | _ => [e]
  end.

(** [isinstance(e, cls)] for some [cls] of the tuple [handled]: the test an
    [except (A, B):] clause makes. *)
Definition caught_by (handled : list exn) (e : exn) : bool :=
  existsb (fun c => bool_decide (c ∈ handled)) (exn_classes e).

Inductive result (A : Type) : Type :=
| Return (a : A)
| Raise (e : exn).
Arguments Return {A} a.
Arguments Raise {A} e.

(** ** The plugin registry *)

(** What reading an attribute of an object does: it yields a value or
    raises (a missing attribute raises [AttributeError]). *)
Inductive attr_read (A : Type) : Type :=
| Attr (a : A)
| AttrRaises (e : exn).
Arguments Attr {A} a.
Arguments AttrRaises {A} e.

(** A setting definition is a dictionary of its parameters (name,
    description, default, ...); a settings dictionary maps setting keys to
    definitions. *)
Abbreviation SettingDef := (gmap string pyval).
Abbreviation SettingsDict := (gmap string SettingDef).

(** A plugin instance, as far as the models look at it: the attributes that
    [getattr(plugin, name, None)] can find, and what reading
    [plugin._mixinreg] does.  Plugin instances are plain objects: they are
    truthy, and reading an attribute that they have yields its value. *)
Record Plugin : Type := {
  attributes : gmap string pyval;
  _mixinreg : attr_read (gmap string string)
}.

(** [plugin.registry]: [plugins] maps a key to its plugin instance,
    [mixins_settings] maps a plugin key to the settings it declares. *)
Record Registry : Type := {
  plugins : gmap string Plugin;
  mixins_settings : gmap string SettingsDict
}.

(** [getattr(obj, name, None)] on a plugin instance. *)
Definition getattr_or_None (p : Plugin) (name : string) : pyval :=
  default PyNone (attributes p !! name).

(** ** The relational store

    The model classes declare fields and constraints; the object-relational
    mapping layer and the database that store the rows and enforce the
    constraints are not part of the sources.  The spec describes the
    persisted schema as relational tables with standard primary keys and
    uniqueness constraints.  This module gives such tables the semantics of
    SQL constraints.  The schema of each table is read off the declarations
    of its model class. *)
Module db.

Inductive value : Type :=
| VStr (s : string)
| VInt (z : Z)
| VBool (b : bool).

#[global] Instance value_eq_dec : EqDecision value.
Proof. solve_decision. Defined.

(** A row maps column names to values; a column without a value holds
    NULL.  The primary key is kept apart: a table maps it to the row. *)
Abbreviation row := (gmap string value).
Abbreviation table := (gmap Z row).

(** A field declaration: [null=...] and [unique=...]. *)
Record column : Type := {
  col_name : string;
  null : bool;
  unique : bool
}.

(** The declarations of a model class: its fields and
    [Meta.unique_together]. *)
Record Schema : Type := {
  columns : list column;
  unique_together : list (list string)
}.

(** All uniqueness constraints of a schema, as sets of column names. *)
Definition constraints (sch : Schema) : list (list string) :=
  ((fun c => [col_name c]) <$> filter (fun c => unique c = true) (columns sch))
  ++ unique_together sch.

(** NOT NULL: every column declared [null=False] has a value. *)
Definition not_null_ok (sch : Schema) (r : row) : bool :=
  forallb (fun c => null c || bool_decide (is_Some (r !! col_name c)))
          (columns sch).

(** Modelled from the spec: the test of a uniqueness constraint, which the
    database makes.  Two rows collide on a set of columns when each of the
    columns holds a value in both rows and the values are equal.  NULL is
    equal to nothing, itself included, so a row with a NULL in one of the
    columns collides with no row. *)
Definition agree_on (cols : list string) (r1 r2 : row) : bool :=
  forallb (fun c => match r1 !! c, r2 !! c with
                    | Some a, Some b => bool_decide (a = b)
                    | _, _ => false
                    end) cols.

(** Does row [r], stored under [pk], collide with another row of [t]? *)
Definition violates_unique (sch : Schema) (t : table) (pk : Z) (r : row) : bool :=
  existsb (fun cols =>
             existsb (fun e => negb (bool_decide (e.1 = pk)) && agree_on cols r e.2)
                     (map_to_list t))
          (constraints sch).

(** The key handed to a row inserted without one. *)
Definition next_pk (t : table) : Z :=
  1 + foldr (fun e acc => Z.max e.1 acc) 0%Z (map_to_list t).

(** Modelled from the spec: INSERT, which the database executes.  It fails
    with [IntegrityError] on a NULL in a NOT NULL column, on a primary key
    already in use and on a uniqueness violation. *)
Definition sql_insert (sch : Schema) (t : table) (pk : option Z) (r : row)
  : result Z * table :=
  let pk' := default (next_pk t) pk in
  if negb (not_null_ok sch r)
     || bool_decide (is_Some (t !! pk'))
     || violates_unique sch t pk' r
  then (Raise IntegrityError, t)
  else (Return pk', <[pk' := r]> t).

(** Modelled from the spec: UPDATE ... WHERE pk = [pk], which the database
    executes.  It returns whether a row was matched, and fails like
    INSERT. *)
Definition sql_update (sch : Schema) (t : table) (pk : Z) (r : row)
  : result bool * table :=
  match t !! pk with
  | None => (Return false, t)
  | Some _ =>
      if negb (not_null_ok sch r) || violates_unique sch t pk r
      then (Raise IntegrityError, t)
      else (Return true, <[pk := r]> t)
  end.

(** Modelled from the spec: DELETE ... WHERE pk = [pk]. *)
Definition sql_delete (t : table) (pk : Z) : table := delete pk t.

(** The tables that a sequence of successful statements can build. *)
Inductive reachable (sch : Schema) : table -> Prop :=
| reach_empty : reachable sch ∅
| reach_insert t pk r pk' t' :
    reachable sch t ->
    sql_insert sch t pk r = (Return pk', t') ->
    reachable sch t'
| reach_update t pk r t' :
    reachable sch t ->
    sql_update sch t pk r = (Return true, t') ->
    reachable sch t'
| reach_delete t pk :
    reachable sch t ->
    reachable sch (sql_delete t pk).

(** The state of the constraints: no stored row has a NULL in a NOT NULL
    column, and no two stored rows collide on a constraint. *)
Definition consistent (sch : Schema) (t : table) : Prop :=
  forall pk r, t !! pk = Some r ->
    not_null_ok sch r = true /\
    forall cols pk' r', cols ∈ constraints sch ->
      t !! pk' = Some r' -> pk' <> pk -> agree_on cols r r' = false.

(** Modelled from the spec: [Model.save(force_insert, force_update)] of the
    mapping layer, with [using] and [update_fields] left at their defaults,
    for an instance whose primary key is [pk] and whose fields prepare to
    [prep] (preparing a field for the database can raise).  An instance
    with a primary key is updated, and inserted when no row has that key;
    an instance without one is inserted.  Returns the primary key of the
    instance after the call. *)
Definition Model_save (sch : Schema) (pk : option Z) (prep : result row)
           (force_insert force_update : pyval) (t : table)
  : result (option Z) * table :=
  if py_truthy force_insert && py_truthy force_update
  then (Raise ValueError, t)
  else match pk, py_truthy force_update with
  | None, true => (Raise ValueError, t)
  | _, _ =>
    match prep with
    | Raise e => (Raise e, t)
    | Return r =>
      let do_insert :=
        match sql_insert sch t pk r with
        | (Return pk', t') => (Return (Some pk'), t')
        | (Raise e, t') => (Raise e, t')
        end in
      match pk with
      | Some p =>
          if py_truthy force_insert then do_insert
          else match sql_update sch t p r with
               | (Raise e, t') => (Raise e, t')
               | (Return true, t') => (Return (Some p), t')
               | (Return false, t') =>
                   if py_truthy force_update
                   then (Raise DatabaseError, t')
                   else do_insert
               end
      | None => do_insert
      end
    end
  end.

End db.

(** ** The world the models run in *)

(** One table per model class. *)
Record Database : Type := {
  plugin_pluginconfig : db.table;
  plugin_pluginsetting : db.table;
  plugin_notificationusersetting : db.table
}.

(** The process-wide objects: the database, [plugin.registry] and
    [common.notifications.storage.user_settings]. *)
Record World : Type := {
  database : Database;
  registry : Registry;
  user_settings : SettingsDict
}.

(** Calls to collaborators that the models make and that are observed. *)
Inductive event : Type :=
| reload_plugins_called.

#[global] Instance event_eq_dec : EqDecision event.
Proof. solve_decision. Defined.

Record State : Type := {
  world : World;
  calls : list event
}.

(** Computations that read and write the state and may raise.  A raised
    exception keeps the state reached so far. *)
Definition M (A : Type) : Type := State -> result A * State.

#[global] Instance M_ret : MRet M := fun A a s => (Return a, s).

#[global] Instance M_bind : MBind M := fun A B f c s =>
  match c s with
  | (Return a, s') => f a s'
  | (Raise e, s') => (Raise e, s')
  end.

(** Run a collaborator that sees the world but not the record of calls. *)
Definition lift {A : Type} (f : World -> result A * World) : M A := fun s =>
  let (r, w) := f (world s) in (r, {| world := w; calls := calls s |}).

(** Note a call in the record. *)
Definition emit (e : event) : M unit := fun s =>
  (Return tt, {| world := world s; calls := calls s ++ [e] |}).

(** How many times has [registry.reload_plugins] been called? *)
Definition reload_count (s : State) : nat :=
  length (filter (fun e => e = reload_plugins_called) (calls s)).

(** ** [class PluginConfig(models.Model)] *)
Module PluginConfig.

(** An instance: the model fields ([pk] is the automatic primary key), and
    the three attributes that [__init__] adds. *)
Record t : Type := {
  pk : option Z;
  key : option string;
  name : option string;
  active : pyval;
  __org_active : pyval;
  plugin : option Plugin;
  meta : gmap string pyval
}.

(** The field declarations: [key] is [unique=True] and required, [name]
    is [null=True], [active] is a required boolean. *)
Definition schema : db.Schema := {|
  db.columns := [
    {| db.col_name := "key"; db.null := false; db.unique := true |};
    {| db.col_name := "name"; db.null := true; db.unique := false |};
    {| db.col_name := "active"; db.null := false; db.unique := false |} ];
  db.unique_together := []
|}.

Definition str_of_field (f : option string) : string :=
  match f with Some s => s | None => "None" end.

Definition __str__ (self : t) : string :=
  let name := str_of_field (name self) +:+ " - " +:+ str_of_field (key self) in
  if negb (py_truthy (active self)) then name +:+ "(not active)" else name.

(** Reading [self.plugin._mixinreg]: on [None] the attribute does not
    exist. *)
Definition read_mixinreg (self : t) : attr_read (gmap string string) :=
  match plugin self with
  | Some p => _mixinreg p
  | None => AttrRaises AttributeError
  end.

Definition mixins (self : t) : result (gmap string string) :=
  match read_mixinreg self with
  | Attr reg => Return reg
  | AttrRaises e =>
      if caught_by [AttributeError; ValueError] e then Return ∅ else Raise e
  end.

(** The keys of [self.meta]. *)
Definition meta_keys : list string :=
  ["slug"; "human_name"; "description"; "author";
   "pub_date"; "version"; "website"; "license";
   "package_path"; "settings_url"].

(** The local function of [__init__], for the plugin found in the
    registry. *)
Definition get_plugin_meta (plugin : option Plugin) (name : string) : pyval :=
  match plugin with
  | Some p => PyStr (py_str (getattr_or_None p name))
  | None => PyNone
  end.

(** [__init__], after [super().__init__] has set the model fields to the
    values given here. *)
Definition __init__ (reg : Registry) (pk : option Z) (key name : option string)
           (active : pyval) : t :=
  let plugin := k ← key; plugins reg !! k in
  {| pk := pk; key := key; name := name; active := active;
     __org_active := active;
     plugin := plugin;
     meta := list_to_map ((fun k => (k, get_plugin_meta plugin k)) <$> meta_keys) |}.

Definition set_pk (self : t) (pk' : option Z) : t :=
  {| pk := pk'; key := key self; name := name self; active := active self;
     __org_active := __org_active self; plugin := plugin self;
     meta := meta self |}.

Section save.

(** [super().save]: given the instance, the two flags, the further
    positional and the keyword arguments, it returns a value and the
    primary key of the instance after the call. *)
Variable super_save :
  t -> pyval -> pyval -> list pyval -> gmap string pyval ->
  World -> result (pyval * option Z) * World.

(** [registry.reload_plugins] *)
Variable reload_plugins : World -> result unit * World.

(** [save] returns the value of [super().save] and the instance as the
    call leaves it. *)
Definition save (self : t) (force_insert force_update : pyval)
           (args : list pyval) (kwargs : gmap string pyval) : M (pyval * t) :=
  let reload := default (PyBool false) (kwargs !! "no_reload") in
  let kwargs := delete "no_reload" kwargs in
  r ← lift (super_save self force_insert force_update args kwargs);
  let ret := r.1 in
  let self := set_pk self r.2 in
  if negb (py_truthy reload) then
    if (py_is_False (active self) && py_is_True (__org_active self))
       || (py_is_True (active self) && py_is_False (__org_active self))
    then
      _ ← emit reload_plugins_called;
      _ ← lift reload_plugins;
      mret (ret, self)
    else mret (ret, self)
  else mret (ret, self).

End save.

(** Modelled from the spec: [BooleanField.to_python] of the mapping layer,
    for the required field [active]. *)
Definition BooleanField_to_python (v : pyval) : result bool :=
  match v with
  | PyBool b => Return b
  | PyInt 1 => Return true
  | PyInt 0 => Return false
  | PyStr s =>
      if bool_decide (s ∈ ["t"; "True"; "1"]) then Return true
      else if bool_decide (s ∈ ["f"; "False"; "0"]) then Return false
      else Raise ValidationError
  | _ => Raise ValidationError
  end.

Definition set_col (c : string) (v : option db.value) (r : db.row) : db.row :=
  match v with
  | Some x => <[c := x]> r
  | None => r
  end.

(** The row an instance is stored as.  [None] is stored as NULL; any other
    value of [active] goes through [BooleanField.to_python]. *)
Definition prepare (self : t) : result db.row :=
  let r := set_col "key" (db.VStr <$> key self)
             (set_col "name" (db.VStr <$> name self) ∅) in
  match active self with
  | PyNone => Return r
  | v => match BooleanField_to_python v with
         | Return b => Return (<["active" := db.VBool b]> r)
         | Raise e => Raise e
         end
  end.

Definition set_plugin_pluginconfig (w : World) (t : db.table) : World :=
  {| database := {| plugin_pluginconfig := t;
                    plugin_pluginsetting := plugin_pluginsetting (database w);
                    plugin_notificationusersetting :=
                      plugin_notificationusersetting (database w) |};
     registry := registry w;
     user_settings := user_settings w |}.

(** Modelled from the spec: [models.Model.save] on a [PluginConfig], the
    [super().save] of [PluginConfig.save].  A keyword that [Model.save] does
    not have is a [TypeError], as is a positional argument beyond its four.
    The store has one database and writes whole rows, so a call that passes
    [using] or [update_fields] is outside the model and is reported as
    [NotImplementedError]. *)
Definition Model_save (self : t) (force_insert force_update : pyval)
           (args : list pyval) (kwargs : gmap string pyval) (w : World)
  : result (pyval * option Z) * World :=
  if negb (forallb (fun k => bool_decide (k ∈ ["using"; "update_fields"]))
                   (map_to_list kwargs).*1)
     || (2 <? length args)%nat
  then (Raise TypeError, w)
  else if negb (bool_decide (args = [])) || negb (bool_decide (kwargs = ∅))
  then (Raise NotImplementedError, w)
  else
    match db.Model_save schema (pk self) (prepare self)
                        force_insert force_update
                        (plugin_pluginconfig (database w)) with
    | (Return pk', t') => (Return (PyNone, pk'), set_plugin_pluginconfig w t')
    | (Raise e, t') => (Raise e, set_plugin_pluginconfig w t')
    end.

End PluginConfig.

(** ** The setting classes *)

(** What a keyword argument of the class methods can hold: a plain value,
    a settings dictionary, a [PluginConfig] or a plugin instance (an
    instance of a subclass of [InvenTreePluginBase]). *)
Inductive kwval : Type :=
| KwVal (v : pyval)
| KwSettings (d : SettingsDict)
| KwPluginConfig (c : PluginConfig.t)
| KwPlugin (p : Plugin).

(** [bool(v)]: model and plugin instances are truthy, a dictionary is truthy
    when it is not empty. *)
Definition kw_truthy (v : kwval) : bool :=
  match v with
  | KwVal v => py_truthy v
  | KwSettings d => negb (bool_decide (d = ∅))
  | KwPluginConfig _ => true
  | KwPlugin _ => true
  end.

(** [issubclass(v.__class__, InvenTreePluginBase)] *)
Definition is_InvenTreePluginBase (v : kwval) : bool :=
  match v with
  | KwPlugin _ => true
  | _ => false
  end.

(** Reading [v.key]: only a [PluginConfig] has the attribute. *)
Definition read_key (v : kwval) : attr_read (option string) :=
  match v with
  | KwPluginConfig c => Attr (PluginConfig.key c)
  | _ => AttrRaises AttributeError
  end.

Definition raise {A : Type} (e : exn) : M A := fun s => (Raise e, s).

Definition get_registry : M Registry := fun s => (Return (registry (world s)), s).

Definition get_user_settings : M SettingsDict := fun s =>
  (Return (user_settings (world s)), s).

(** Modelled from the spec: the columns that the abstract base class
    [BaseInvenTreeSetting] of [common.models] declares, which is not in the
    sources.  A setting row is a key/value row: both are required
    strings. *)
Definition BaseInvenTreeSetting_columns : list db.column :=
  [ {| db.col_name := "key"; db.null := false; db.unique := false |};
    {| db.col_name := "value"; db.null := false; db.unique := false |} ].

(** [class PluginSetting(GenericSettingClassMixin, BaseInvenTreeSetting)] *)
Module PluginSetting.

(** The inherited columns, the required foreign key [plugin], and
    [Meta.unique_together]. *)
Definition schema : db.Schema := {|
  db.columns := BaseInvenTreeSetting_columns ++
    [ {| db.col_name := "plugin"; db.null := false; db.unique := false |} ];
  db.unique_together := [ ["plugin"; "key"] ]
|}.

Definition REFERENCE_NAME : string := "plugin".

Section get_setting_definition.

Context {R : Type}.

(** [BaseInvenTreeSetting.get_setting_definition(key, **kwargs)] *)
Variable super_get_setting_definition : string -> gmap string kwval -> M R.

(** [InvenTreePluginBase.plugin_config()]: the [PluginConfig] of a plugin
    instance, or [None]. *)
Variable plugin_config : Plugin -> World -> result (option PluginConfig.t) * World.

Definition get_setting_definition (key : string) (kwargs : gmap string kwval) : M R :=
  match kwargs !! "settings" with
  | None =>
      let plugin := default (KwVal PyNone) (kwargs !! "plugin") in
      let kwargs := delete "plugin" kwargs in
      if kw_truthy plugin then
        plugin ← match plugin with
                 | KwPlugin p =>
                     c ← lift (plugin_config p);
                     mret (from_option KwPluginConfig (KwVal PyNone) c)
                 | _ => mret plugin
                 end;
        match read_key plugin with
        | AttrRaises e => raise e
        | Attr k =>
            reg ← get_registry;
            let settings := default ∅ (k ← k; mixins_settings reg !! k) in
            super_get_setting_definition key (<["settings" := KwSettings settings]> kwargs)
        end
      else super_get_setting_definition key kwargs
  | Some _ => super_get_setting_definition key kwargs
  end.

End get_setting_definition.

End PluginSetting.

(** [class NotificationUserSetting(BaseInvenTreeSetting)] *)
Module NotificationUserSetting.

(** The inherited columns, the required [method], the foreign key [user]
    declared [null=True], and [Meta.unique_together]. *)
Definition schema : db.Schema := {|
  db.columns := BaseInvenTreeSetting_columns ++
    [ {| db.col_name := "method"; db.null := false; db.unique := false |};
      {| db.col_name := "user"; db.null := true; db.unique := false |} ];
  db.unique_together := [ ["method"; "user"; "key"] ]
|}.

Definition REFERENCE_NAME : string := "method".

Section get_setting_definition.

Context {R : Type}.

(** [BaseInvenTreeSetting.get_setting_definition(key, **kwargs)] *)
Variable super_get_setting_definition : string -> gmap string kwval -> M R.

Definition get_setting_definition (key : string) (kwargs : gmap string kwval) : M R :=
  storage_user_settings ← get_user_settings;
  let kwargs := <["settings" := KwSettings storage_user_settings]> kwargs in
  super_get_setting_definition key kwargs.

End get_setting_definition.

End NotificationUserSetting.

(** ** Regular expressions

    The part of Python's [re] syntax that the URL patterns use: literal
    characters, escaped punctuation, the anchors [^] and [$], bracketed
    character sets, groups, and the greedy repetitions [*], [+] and [?].
    A set that begins with a closing bracket, a class escape such as [\d],
    alternation and the dot are outside this part: such a pattern does not
    compile here. *)
Module re.

Inductive set_item : Type :=
| One (c : ascii)
| Range (lo hi : ascii).

Inductive regex : Type :=
| Eps
| Bos                                    (* ^ *)
| Eos                                    (* $ *)
| Lit (c : ascii)
| Set_ (negated : bool) (items : list set_item)
| Cat (a b : regex)
| Star (a : regex)
| Plus (a : regex)
| Opt (a : regex)
| Group (name : option string) (a : regex).

Definition in_item (c : ascii) (i : set_item) : bool :=
  match i with
  | One c' => Ascii.eqb c c'
  | Range lo hi => (nat_of_ascii lo <=? nat_of_ascii c)%nat
                   && (nat_of_ascii c <=? nat_of_ascii hi)%nat
  end.

Definition is_alnum (c : ascii) : bool :=
  existsb (in_item c) [Range "0" "9"; Range "A" "Z"; Range "a" "z"].

(** *** Compiling a pattern *)

(** The items of a character set, up to the closing bracket. *)
Fixpoint parse_set (fuel : nat) (s : list ascii) : option (list set_item * list ascii) :=
  match fuel with
  | O => None
  | S fuel =>
      match s with
      | [] => None
      | "]"%char :: rest => Some ([], rest)
      | "\"%char :: c :: rest =>
          if is_alnum c then None
          else '(items, rest') ← parse_set fuel rest; Some (One c :: items, rest')
      | lo :: "-"%char :: hi :: rest =>
          if Ascii.eqb hi "]" then
            '(items, rest') ← parse_set fuel ("-"%char :: hi :: rest);
            Some (One lo :: items, rest')
          else
            '(items, rest') ← parse_set fuel rest;
            Some (Range lo hi :: items, rest')
      | c :: rest =>
          '(items, rest') ← parse_set fuel rest; Some (One c :: items, rest')
      end
  end.

(** The name of a named group, up to the closing angle bracket. *)
Fixpoint parse_name (s : list ascii) : option (string * list ascii) :=
  match s with
  | [] => None
  | ">"%char :: rest => Some ("", rest)
  | c :: rest => '(n, rest') ← parse_name rest; Some (String c n, rest')
  end.

(** A repetition after an item.  A second repetition sign (a lazy or
    possessive repetition, or a repeated repetition) is not supported. *)
Definition parse_repeat (a : regex) (s : list ascii) : option (regex * list ascii) :=
  let no_second (r : regex) (rest : list ascii) :=
    match rest with
    | c :: _ => if bool_decide (c ∈ ["*"; "+"; "?"; "{"]%char) then None else Some (r, rest)
    | [] => Some (r, rest)
    end in
  match s with
  | "*"%char :: rest => no_second (Star a) rest
  | "+"%char :: rest => no_second (Plus a) rest
  | "?"%char :: rest => no_second (Opt a) rest
  | "{"%char :: _ => None
  | _ => Some (a, s)
  end.

(** A sequence of items, up to the end of the pattern or to a closing
    parenthesis (which is left in place). *)
Fixpoint parse_seq (fuel : nat) (s : list ascii) : option (regex * list ascii) :=
  match fuel with
  | O => None
  | S fuel =>
      let item (a : regex) (rest : list ascii) :=
        '(a', rest') ← parse_repeat a rest;
        '(b, rest'') ← parse_seq fuel rest';
        Some (Cat a' b, rest'') in
      let anchor (a : regex) (rest : list ascii) :=
        '(b, rest') ← parse_seq fuel rest;
        Some (Cat a b, rest') in
      match s with
      | [] => Some (Eps, [])
      | ")"%char :: _ => Some (Eps, s)
      | "^"%char :: rest => anchor Bos rest
      | "$"%char :: rest => anchor Eos rest
      | "\"%char :: c :: rest => if is_alnum c then None else item (Lit c) rest
      | "["%char :: "]"%char :: _ => None
      | "["%char :: "^"%char :: "]"%char :: _ => None
      | "["%char :: "^"%char :: rest =>
          '(items, rest') ← parse_set (length rest) rest;
          item (Set_ true items) rest'
      | "["%char :: rest =>
          '(items, rest') ← parse_set (length rest) rest;
          item (Set_ false items) rest'
      | "("%char :: "?"%char :: "P"%char :: "<"%char :: rest =>
          '(n, rest') ← parse_name rest;
          '(a, rest'') ← parse_seq fuel rest';
          match rest'' with
          | ")"%char :: rest''' => item (Group (Some n) a) rest'''
          | _ => None
          end
      | "("%char :: "?"%char :: _ => None
      | "("%char :: rest =>
          '(a, rest') ← parse_seq fuel rest;
          match rest' with
          | ")"%char :: rest'' => item (Group None a) rest''
          | _ => None
          end
      | c :: rest =>
          if bool_decide (c ∈ ["."; "|"; "*"; "+"; "?"; "{"; "}"; "\"]%char) then None
          else item (Lit c) rest
      end
  end.

(** [re.compile(pattern)]; [None] when the pattern is malformed or outside
    the supported syntax. *)
Definition compile (pattern : string) : option regex :=
  let s := list_ascii_of_string pattern in
  '(r, rest) ← parse_seq (S (length s)) s;
  match rest with
  | [] => Some r
  | _ => None
  end.

(** *** Matching *)

(** A position in the subject: the number of characters before it, the
    characters from it on, and the named groups matched so far. *)
Record pos : Type := {
  offset : nat;
  rest : list ascii;
  groups : gmap string string
}.

(** The positions at which a match of [r] begun at [p] can end, in the order
    in which a backtracking matcher finds them: a repetition first tries to
    match once more.  An iteration of [*] or [+] that consumes nothing is
    not repeated. *)
Fixpoint ends (r : regex) (p : pos) : list pos :=
  let step (c_ok : ascii -> bool) :=
    match rest p with
    | c :: cs => if c_ok c
                 then [ {| offset := S (offset p); rest := cs; groups := groups p |} ]
                 else []
    | [] => []
    end in
  let star (a : regex) :=
    fix star (n : nat) (p : pos) : list pos :=
      match n with
      | O => [p]
      | S n =>
          (flat_map (fun p' => if (offset p <? offset p')%nat then star n p' else [])
                    (ends a p)
           ++ [p])
      end in
  match r with
  | Eps => [p]
  | Bos => if (offset p =? 0)%nat then [p] else []
  | Eos => match rest p with
           | [] => [p]
           | [c] => if Ascii.eqb c "010" then [p] else []
           | _ => []
           end
  | Lit c => step (Ascii.eqb c)
  | Set_ negated items => step (fun c => xorb negated (existsb (in_item c) items))
  | Cat a b => flat_map (ends b) (ends a p)
  | Star a => star a (length (rest p)) p
  | Plus a => flat_map (star a (length (rest p))) (ends a p)
  | Opt a => (ends a p ++ [p])
  | Group name a =>
      match name with
      | None => ends a p
      | Some n =>
          (fun p' =>
             {| offset := offset p'; rest := rest p';
                groups := <[n := string_of_list_ascii
                                   (take (offset p' - offset p) (rest p))]> (groups p') |})
          <$> ends a p
      end
  end.

(** The suffixes of a subject, with their offsets: the places where
    [search] tries to begin a match. *)
Fixpoint starts (n : nat) (s : list ascii) : list pos :=
  {| offset := n; rest := s; groups := ∅ |} ::
  match s with
  | [] => []
  | _ :: s' => starts (S n) s'
  end.

(** [regex.search(subject)]: the first match from the leftmost place where
    there is one. *)
Definition search (r : regex) (subject : list ascii) : option pos :=
  head (flat_map (ends r) (starts 0 subject)).

End re.

(** ** URL dispatch ([django.conf.urls]) *)

(** The handler classes of [part.views] that the route tables name. *)
Inductive view : Type :=
| PartCategoryDetail
| PartCategoryList
| PartParamDetail
| PartParamList
| PartTemplateDetail
| PartTemplateList
| PartDetail
| PartList.

#[global] Instance view_eq_dec : EqDecision view.
Proof. solve_decision. Defined.

(** [url(regex, view)] and [url(regex, include(patterns))]. *)
Inductive route : Type :=
| url (pattern : string) (t : target)
with target : Type :=
| as_view (v : view)
| include (patterns : list route).

(** The outcome of resolving a path: the handler with the keyword arguments
    captured from the path; no route ([Resolver404]); or a pattern that does
    not compile ([ImproperlyConfigured]). *)
Inductive resolution : Type :=
| ResolverMatch (func : view) (kwargs : gmap string string)
| Resolver404
| ImproperlyConfigured.

(** Resolve [path] against one route.  A view route matches when its
    pattern is found in the path.  An included table is tried on what
    follows the match of the prefix, and its captured groups are passed
    down; when none of its routes resolves, the route as a whole does not
    resolve. *)
Fixpoint resolve_route (r : route) (path : list ascii) : resolution :=
  match r with
  | url pattern t =>
      match re.compile pattern with
      | None => ImproperlyConfigured
      | Some regex =>
          match re.search regex path with
          | None => Resolver404
          | Some m =>
              match t with
              | as_view v => ResolverMatch v (re.groups m)
              | include patterns =>
                  let new_path := re.rest m in
                  (fix resolve_list (ps : list route) : resolution :=
                     match ps with
                     | [] => Resolver404
                     | p :: ps' =>
                         match resolve_route p new_path with
                         | ResolverMatch v kwargs =>
                             ResolverMatch v (kwargs ∪ re.groups m)
                         | Resolver404 => resolve_list ps'
                         | ImproperlyConfigured => ImproperlyConfigured
                         end
                     end) patterns
              end
          end
      end
  end.

(** Resolve a path against a route table: the first route that resolves
    wins. *)
Fixpoint resolve (urlpatterns : list route) (path : list ascii) : resolution :=
  match urlpatterns with
  | [] => Resolver404
  | p :: ps =>
      match resolve_route p path with
      | Resolver404 => resolve ps path
      | found => found
      end
  end.

(** The handlers that a route, and a route table, can lead to. *)
Fixpoint route_views (r : route) : list view :=
  match r with
  | url _ t =>
      match t with
      | as_view v => [v]
      | include patterns =>
          (fix table_views (ps : list route) : list view :=
             match ps with
             | [] => []
             | p :: ps' => route_views p ++ table_views ps'
             end) patterns
      end
  end.

Definition table_views (ps : list route) : list view :=
  flat_map route_views ps.

(** ** [part/urls.py] *)
Module part_urls.

Definition categorypatterns : list route := [
  (* Part category detail *)
  url "^category/(?P<pk>[0-9]+)/$" (as_view PartCategoryDetail);
  (* List of top-level categories *)
  url "^$" (as_view PartCategoryList)
].

Definition partparampatterns : list route := [
  (* Detail of a single part parameter *)
  url "^(?P<pk>[0-9]+)/$" (as_view PartParamDetail);
  (* Parameters associated with a particular part *)
  url "^\?[^/]*/$" (as_view PartParamList);
  (* All part parameters *)
  url "^$" (as_view PartParamList)
].

Definition parttemplatepatterns : list route := [
  (* Detail of a single part field template *)
  url "^(?P<pk>[0-9]+)/$" (as_view PartTemplateDetail);
  (* List all part field templates *)
  url "^$" (as_view PartTemplateList)
].

Definition urlpatterns : list route := [
  (* Individual part *)
  url "^(?P<pk>[0-9]+)/$" (as_view PartDetail);
  (* Part categories *)
  url "^category/" (as_view PartCategoryList);
  (* Part parameters *)
  url "^parameters/" (include partparampatterns);
  (* Part templates *)
  url "^templates/" (include parttemplatepatterns);
  (* List parts with optional filters *)
  url "^\?*[^/]*/?$" (as_view PartList)
].

(** Dispatch of a request path (without the prefix under which the part
    application is mounted). *)
Definition dispatch (path : string) : resolution :=
  resolve urlpatterns (list_ascii_of_string path).

End part_urls.

(** ** Sample data *)

(** Assignment to [self.active]. *)
Definition set_active (self : PluginConfig.t) (v : pyval) : PluginConfig.t :=
  {| PluginConfig.pk := PluginConfig.pk self;
     PluginConfig.key := PluginConfig.key self;
     PluginConfig.name := PluginConfig.name self;
     PluginConfig.active := v;
     PluginConfig.__org_active := PluginConfig.__org_active self;
     PluginConfig.plugin := PluginConfig.plugin self;
     PluginConfig.meta := PluginConfig.meta self |}.

(** A plugin that declares a slug, a version and no author, and that uses
    the settings mixin. *)
Definition demo_plugin : Plugin :=
  {| attributes := {["slug" := PyStr "sample"; "version" := PyInt 2;
                     "author" := PyNone]};
     _mixinreg := Attr {["settings" := "SettingsMixin"]} |}.

Definition demo_registry : Registry :=
  {| plugins := {["sample" := demo_plugin]};
     mixins_settings :=
       {["sample" := {["API_KEY" := {["name" := PyStr "API Key"]}]}]} |}.

Definition demo_user_settings : SettingsDict :=
  {["NOTIFICATION_SEND_EMAILS" := {["default" := PyBool true]}]}.

(** A world with empty tables. *)
Definition demo_world : World :=
  {| database := {| plugin_pluginconfig := ∅;
                    plugin_pluginsetting := ∅;
                    plugin_notificationusersetting := ∅ |};
     registry := demo_registry;
     user_settings := demo_user_settings |}.

Definition demo_state : State := {| world := demo_world; calls := [] |}.

(** A registry whose reload succeeds and changes nothing. *)
Definition reload_nothing (w : World) : result unit * World := (Return tt, w).

(** A configuration of the sample plugin, constructed inactive. *)
Definition demo_config : PluginConfig.t :=
  PluginConfig.__init__ demo_registry None (Some "sample") (Some "Sample") (PyBool false).

(** The table of plugin configurations after the sample configuration has
    been inserted. *)
Definition demo_config_row : db.row :=
  {["key" := db.VStr "sample"; "name" := db.VStr "Sample"; "active" := db.VBool false]}.

Definition demo_config_table : db.table :=
  (db.sql_insert PluginConfig.schema ∅ None demo_config_row).2.

Definition demo_config_state : State :=
  {| world := PluginConfig.set_plugin_pluginconfig demo_world demo_config_table;
     calls := [] |}.

(** A setting of the plugin stored under primary key 1. *)
Definition demo_setting_row : db.row :=
  {["key" := db.VStr "API_KEY"; "value" := db.VStr "secret"; "plugin" := db.VInt 1]}.

Definition demo_setting_table : db.table :=
  (db.sql_insert PluginSetting.schema ∅ None demo_setting_row).2.

(** A notification setting of user 7, and one that has no user. *)
Definition demo_user_row : db.row :=
  {["key" := db.VStr "NOTIFICATION_SEND_EMAILS"; "value" := db.VStr "True";
    "method" := db.VStr "mail"; "user" := db.VInt 7]}.

Definition demo_nouser_row : db.row :=
  {["key" := db.VStr "NOTIFICATION_SEND_EMAILS"; "value" := db.VStr "True";
    "method" := db.VStr "mail"]}.

Definition demo_user_table : db.table :=
  (db.sql_insert NotificationUserSetting.schema ∅ None demo_user_row).2.


(** The notification settings stored by inserting the given rows one after
    the other into an empty table. *)
Definition demo_notification_table (rows : list db.row) : db.table :=
  foldl (fun t r => (db.sql_insert NotificationUserSetting.schema t None r).2) ∅ rows.

(** The same setting for user 8. *)
Definition demo_other_user_row : db.row := <["user" := db.VInt 8]> demo_user_row.

(** The rows of a table with the same setting for two users and, twice,
    for no user. *)
Definition demo_mixed_rows : list db.row :=
  [demo_user_row; demo_other_user_row; demo_nouser_row; demo_nouser_row].

Definition demo_mixed_table : db.table := demo_notification_table demo_mixed_rows.

(** The declarations of [NotificationUserSetting] over the columns of its
    base class, whatever they are. *)
Definition NotificationUserSetting_schema_over (base : list db.column) : db.Schema := {|
  db.columns := base ++
    [ {| db.col_name := "method"; db.null := false; db.unique := false |};
      {| db.col_name := "user"; db.null := true; db.unique := false |} ];
  db.unique_together := [ ["method"; "user"; "key"] ]
|}.

(** A base lookup for the examples: the definition stored under the key in
    the [settings] it is given, if there is one. *)
Definition demo_base_definition (key : string) (kwargs : gmap string kwval)
  : M (option SettingDef) :=
  mret (match kwargs !! "settings" with
        | Some (KwSettings d) => d !! key
        | _ => None
        end).

(** Every plugin instance of the examples belongs to the sample
    configuration. *)
Definition demo_plugin_config (p : Plugin) (w : World)
  : result (option PluginConfig.t) * World :=
  (Return (Some demo_config), w).

(** ** Auxiliary notions for reasoning about matching *)

(** The loop of a repetition in [re.ends], on its own: the end positions of
    at most [n] further iterations of a body whose end positions are given
    by [body]. *)
Definition star_ends (body : re.pos -> list re.pos) : nat -> re.pos -> list re.pos :=
  fix star (n : nat) (p : re.pos) : list re.pos :=
    match n with
    | O => [p]
    | S n =>
        flat_map (fun p' => if (re.offset p <? re.offset p')%nat then star n p' else [])
                 (body p)
        ++ [p]
    end.

(** The test of an expression that matches exactly one character. *)
Definition step_ok (a : re.regex) : option (ascii -> bool) :=
  match a with
  | re.Lit c => Some (Ascii.eqb c)
  | re.Set_ negated items => Some (fun c => xorb negated (existsb (re.in_item c) items))
  | _ => None
  end.

(** The position [n] characters further on. *)
Definition advance (p : re.pos) (n : nat) : re.pos :=
  {| re.offset := re.offset p + n; re.rest := drop n (re.rest p);
     re.groups := re.groups p |}.

(** The number of leading characters that pass a test. *)
Fixpoint span_len (ok : ascii -> bool) (s : list ascii) : nat :=
  match s with
  | c :: cs => if ok c then S (span_len ok cs) else O
  | [] => O
  end.

(** Does every match of [r] consume the character [c]? (A sufficient
    syntactic test.) *)
Fixpoint requires (c : ascii) (r : re.regex) : bool :=
  match r with
  | re.Lit c' => Ascii.eqb c' c
  | re.Cat a b => requires c a || requires c b
  | re.Plus a => requires c a
  | re.Group _ a => requires c a
  | _ => false
  end.

(** The test of [[0-9]]. *)
Definition is_digit (c : ascii) : bool := re.in_item c (re.Range "0" "9").

(** A non-empty string of decimal digits: what [[0-9]+] matches. *)
Definition numeric (s : string) : bool :=
  match list_ascii_of_string s with
  | [] => false
  | l => forallb is_digit l
  end.

(** A string without a slash. *)
Definition slash_free (s : string) : bool :=
  forallb (fun c => negb (Ascii.eqb c "/")) (list_ascii_of_string s).

(** The compiled form of [(?P<pk>[0-9]+)/$], the tail of each detail
    pattern. *)
Definition pk_slash : re.regex :=
  re.Cat (re.Group (Some "pk")
            (re.Cat (re.Plus (re.Set_ false [re.Range "0" "9"])) re.Eps))
         (re.Cat (re.Lit "/") (re.Cat re.Eos re.Eps)).

(** Resolution of a path given as a string. *)
Definition resolve_path (urlpatterns : list route) (path : string) : resolution :=
  resolve urlpatterns (list_ascii_of_string path).

(** ** [class GenericSettingClassMixin] *)
Module GenericSettingClassMixin.

Section mixin.

(** The instances of the class that uses the mixin, and the results of the
    class methods. *)
Context {Self R : Type}.

(** The class attribute: [None] unless the class sets it. *)
Variable REFERENCE_NAME : option string.

(** [getattr(self, name)] and [self.key]. *)
Variable getattr : Self -> string -> attr_read kwval.
Variable key : Self -> string.

(** The methods of the next class in line: [super().clean],
    [super().is_bool], and the class methods [get_setting_name],
    [get_setting_default], [get_setting_description], [get_setting_units]
    and [get_setting_choices]. *)
Variable super_clean : Self -> gmap string kwval -> M unit.
Variable super_is_bool : Self -> gmap string kwval -> M pyval.
Variable get_setting_name : string -> gmap string kwval -> M R.
Variable get_setting_default : string -> gmap string kwval -> M R.
Variable get_setting_description : string -> gmap string kwval -> M R.
Variable get_setting_units : string -> gmap string kwval -> M R.
Variable get_setting_choices : string -> gmap string kwval -> M R.

(** [getattr(self, self.REFERENCE_NAME)]: the name has to be a string. *)
Definition read_reference (self : Self) : M (string * kwval) := fun s =>
  match REFERENCE_NAME with
  | None => (Raise TypeError, s)
  | Some n =>
      match getattr self n with
      | Attr v => (Return (n, v), s)
      | AttrRaises e => (Raise e, s)
      end
  end.

Definition _get_reference (self : Self) : M (gmap string kwval) :=
  ref ← read_reference self;
  mret {[ ref.1 := ref.2 ]}.

Definition clean (self : Self) (kwargs : gmap string kwval) : M unit :=
  ref ← read_reference self;
  super_clean self (<[ref.1 := ref.2]> kwargs).

Definition is_bool (self : Self) (kwargs : gmap string kwval) : M pyval :=
  ref ← read_reference self;
  super_is_bool self (<[ref.1 := ref.2]> kwargs).

Definition name (self : Self) : M R :=
  kwargs ← _get_reference self; get_setting_name (key self) kwargs.

Definition default_value (self : Self) : M R :=
  kwargs ← _get_reference self; get_setting_default (key self) kwargs.

Definition description (self : Self) : M R :=
  kwargs ← _get_reference self; get_setting_description (key self) kwargs.

Definition units (self : Self) : M R :=
  kwargs ← _get_reference self; get_setting_units (key self) kwargs.

Definition choices (self : Self) : M R :=
  kwargs ← _get_reference self; get_setting_choices (key self) kwargs.

End mixin.

End GenericSettingClassMixin.

(** An instance of [PluginSetting]: the inherited fields [key] and [value]
    and the foreign key [plugin], whose attribute holds the related
    [PluginConfig]. *)
Module PluginSettingInstance.

Record t : Type := {
  pk : option Z;
  key : string;
  value : string;
  plugin : PluginConfig.t
}.

(** [getattr(self, name)] for the fields. *)
Definition getattr (self : t) (name : string) : attr_read kwval :=
  if String.eqb name "plugin" then Attr (KwPluginConfig (plugin self))
  else if String.eqb name "key" then Attr (KwVal (PyStr (key self)))
  else if String.eqb name "value" then Attr (KwVal (PyStr (value self)))
  else AttrRaises AttributeError.

(** [self._get_reference()], with the [REFERENCE_NAME] of [PluginSetting]. *)
Definition _get_reference (self : t) : M (gmap string kwval) :=
  GenericSettingClassMixin._get_reference (Some PluginSetting.REFERENCE_NAME)
    getattr self.

End PluginSettingInstance.

(** A setting of the sample configuration. *)
Definition demo_setting : PluginSettingInstance.t :=
  {| PluginSettingInstance.pk := Some 1%Z;
     PluginSettingInstance.key := "API_KEY";
     PluginSettingInstance.value := "secret";
     PluginSettingInstance.plugin := demo_config |}.

(** A plugin whose mixin registry cannot be read. *)
Definition demo_broken_plugin : Plugin :=
  {| attributes := ∅; _mixinreg := AttrRaises UnicodeError |}.

(** Methods next in line for the examples: a [clean] that insists on a
    plugin configuration, and an [is_bool] that tells whether it was given
    a plugin. *)
Definition demo_super_clean (self : PluginSettingInstance.t)
           (kwargs : gmap string kwval) : M unit :=
  match kwargs !! "plugin" with
  | Some (KwPluginConfig _) => mret tt
  | _ => raise ValidationError
  end.

Definition demo_super_is_bool (self : PluginSettingInstance.t)
           (kwargs : gmap string kwval) : M pyval :=
  mret (PyBool (bool_decide (is_Some (kwargs !! "plugin")))).

(** * Properties *)

(** ** URL dispatch *)

Lemma list_ascii_of_string_app (a b : string) :
  list_ascii_of_string (a +:+ b) = (list_ascii_of_string a ++ list_ascii_of_string b)%list.
Proof.
  induction a as [|c a IH]; [reflexivity|].
  unfold String.append; fold String.append. simpl. now rewrite IH.
Qed.

(** Every place after the first where [search] tries to begin lies at a
    positive offset. *)
Lemma starts_offset (n : nat) (s : list ascii) (p : re.pos) :
  p ∈ re.starts n s -> (n <= re.offset p)%nat.
Proof.
  revert n. induction s as [|c s IH]; intros n Hp; simpl in Hp.
  - apply list_elem_of_singleton in Hp. subst p. simpl. lia.
  - apply elem_of_cons in Hp as [->|Hp]; [simpl; lia|].
    apply IH in Hp. lia.
Qed.

Lemma flat_map_nil {A B : Type} (f : A -> list B) (l : list A) :
  (forall x, x ∈ l -> f x = []) -> flat_map f l = [].
Proof.
  induction l as [|x l IH]; intros H; [reflexivity|].
  simpl. rewrite (H x) by left. apply IH. intros y Hy. apply H. now right.
Qed.

(** A pattern that begins with [^] can only match at the beginning of the
    subject. *)
Lemma search_anchored (r : re.regex) (subject : list ascii) :
  re.search (re.Cat re.Bos r) subject
  = head (re.ends (re.Cat re.Bos r)
            {| re.offset := 0; re.rest := subject; re.groups := ∅ |}).
Proof.
  unfold re.search.
  assert (Hs : re.starts 0 subject
               = {| re.offset := 0; re.rest := subject; re.groups := ∅ |}
                   :: match subject with [] => [] | _ :: s' => re.starts 1 s' end)
    by (destruct subject; reflexivity).
  rewrite Hs. cbn [flat_map]. rewrite (flat_map_nil _ (match subject with [] => [] | _ :: s' => re.starts 1 s' end)).
  - now rewrite app_nil_r.
  - intros p Hp. destruct subject as [|c s]; [inversion Hp|].
    apply starts_offset in Hp. cbn [re.ends].
    destruct (re.offset p) eqn:E; [lia|]. reflexivity.
Qed.

Lemma resolve_cons (p : route) (ps : list route) (path : list ascii) :
  resolve (p :: ps) path
  = match resolve_route p path with
    | Resolver404 => resolve ps path
    | found => found
    end.
Proof. reflexivity. Qed.

(** A view route whose pattern begins with [^]. *)
Lemma resolve_route_anchored (pattern : string) (r : re.regex) (v : view)
      (path : list ascii) :
  re.compile pattern = Some (re.Cat re.Bos r) ->
  resolve_route (url pattern (as_view v)) path
  = match head (re.ends (re.Cat re.Bos r)
                  {| re.offset := 0; re.rest := path; re.groups := ∅ |}) with
    | Some m => ResolverMatch v (re.groups m)
    | None => Resolver404
    end.
Proof.
  intros Hc. cbn [resolve_route]. rewrite Hc, search_anchored. reflexivity.
Qed.

(** Evaluate the first match of an anchored pattern in the goal. *)
Ltac first_match :=
  match goal with
  | |- context [head (re.ends ?r ?p)] =>
      let m := eval vm_compute in (head (re.ends r p)) in
      change (head (re.ends r p)) with m; cbv beta iota
  end.

(** C2, as the code has it.  Whatever follows [category/] in
    the path, a numeric id and a slash or nothing at all, the top-level
    route table selects the part-category list handler, with no captured
    argument: the route [^category/] names that handler directly, and no
    route of [urlpatterns] leads to [categorypatterns]. *)
Theorem category_paths_select_list (tail : string) :
  part_urls.dispatch ("category/" +:+ tail) = ResolverMatch PartCategoryList ∅.
Proof.
  unfold part_urls.dispatch, part_urls.urlpatterns.
  rewrite list_ascii_of_string_app.
  generalize (list_ascii_of_string tail) as l. intros l.
  change (list_ascii_of_string "category/")
    with ["c"; "a"; "t"; "e"; "g"; "o"; "r"; "y"; "/"]%char.
  cbn [app].
  rewrite resolve_cons.
  erewrite resolve_route_anchored by (vm_compute; reflexivity).
  first_match.
  rewrite resolve_cons.
  erewrite resolve_route_anchored by (vm_compute; reflexivity).
  first_match.
  reflexivity.
Qed.

(** The detail handler is what the route table of the categories alone
    selects for such a path. *)
Example categorypatterns_detail :
  resolve part_urls.categorypatterns (list_ascii_of_string "category/5/")
  = ResolverMatch PartCategoryDetail {["pk" := "5"]}.
Proof. vm_compute. reflexivity. Qed.

Example dispatch_category_detail :
  part_urls.dispatch "category/5/" = ResolverMatch PartCategoryList ∅.
Proof. vm_compute. reflexivity. Qed.

(** *** The handlers within reach *)

Lemma route_views_include (pattern : string) (ps : list route) :
  route_views (url pattern (include ps)) = table_views ps.
Proof.
  unfold table_views. simpl. induction ps as [|p ps IH]; [reflexivity|].
  simpl. now rewrite IH.
Qed.

Lemma resolve_route_views :
  forall (r : route) (path : list ascii) (v : view) (kw : gmap string string),
    resolve_route r path = ResolverMatch v kw -> v ∈ route_views r.
Proof.
  fix IH 1. intros [pattern [v0|ps]] path v kw H.
  - simpl in *. destruct (re.compile pattern); [|discriminate].
    destruct (re.search _ _); [|discriminate]. inversion H; subst. left.
  - rewrite route_views_include. cbn [resolve_route] in H.
    destruct (re.compile pattern); [|discriminate].
    destruct (re.search _ _) as [m|]; [|discriminate].
    induction ps as [|p ps' IHps]; [discriminate|].
    unfold table_views. simpl.
    destruct (resolve_route p (re.rest m)) as [v1 kw1| |] eqn:Hp.
    + inversion H; subst. apply elem_of_app. left. eapply IH. exact Hp.
    + apply elem_of_app. right. apply IHps. exact H.
    + discriminate.
Qed.

Lemma resolve_views (ps : list route) (path : list ascii) (v : view)
      (kw : gmap string string) :
  resolve ps path = ResolverMatch v kw -> v ∈ table_views ps.
Proof.
  unfold table_views. induction ps as [|p ps IH]; [discriminate|].
  simpl. intros H. apply elem_of_app.
  destruct (resolve_route p path) as [v1 kw1| |] eqn:Hp.
  - inversion H; subst. left. eapply resolve_route_views. exact Hp.
  - right. auto.
  - discriminate.
Qed.

(** X10.  No path at all is dispatched to the part-category detail handler. *)
Lemma category_detail_unreachable (path : string) (kw : gmap string string) :
  part_urls.dispatch path <> ResolverMatch PartCategoryDetail kw.
Proof.
  intros H. apply resolve_views in H.
  revert H. apply (bool_decide_unpack _). vm_compute. exact I.
Qed.

(** ** [PluginConfig.__init__] and [PluginConfig.mixins] *)

Lemma meta_lookup (plugin : option Plugin) (n : string) (v : pyval) :
  (list_to_map ((fun k => (k, PluginConfig.get_plugin_meta plugin k))
                  <$> PluginConfig.meta_keys) : gmap string pyval) !! n = Some v ->
  n ∈ PluginConfig.meta_keys /\ v = PluginConfig.get_plugin_meta plugin n.
Proof.
  intros H. apply elem_of_list_to_map_2 in H.
  apply list_elem_of_fmap in H as (k & Heq & Hk).
  inversion Heq; subst. auto.
Qed.

Lemma meta_lookup_key (plugin : option Plugin) (n : string) :
  n ∈ PluginConfig.meta_keys ->
  (list_to_map ((fun k => (k, PluginConfig.get_plugin_meta plugin k))
                  <$> PluginConfig.meta_keys) : gmap string pyval) !! n
  = Some (PluginConfig.get_plugin_meta plugin n).
Proof.
  intros Hn. apply elem_of_list_to_map_1.
  - unfold PluginConfig.meta_keys. simpl.
    apply (bool_decide_unpack _). vm_compute. exact I.
  - apply list_elem_of_fmap. exists n. auto.
Qed.

(** C3.  When the key of a [PluginConfig] is not in the plugin registry,
    construction yields an instance whose [plugin] is [None] and whose
    [meta] holds [None] under each of its ten keys, and nothing else. *)
Theorem init_plugin_absent (reg : Registry) (pk : option Z)
        (key name : option string) (active : pyval) :
  (forall k, key = Some k -> plugins reg !! k = None) ->
  let self := PluginConfig.__init__ reg pk key name active in
  PluginConfig.plugin self = None
  /\ (forall n, n ∈ PluginConfig.meta_keys -> PluginConfig.meta self !! n = Some PyNone)
  /\ (forall n v, PluginConfig.meta self !! n = Some v -> v = PyNone).
Proof.
  intros Habsent self. subst self. unfold PluginConfig.__init__.
  cbn [PluginConfig.meta PluginConfig.plugin].
  assert (Hp : (k ← key; plugins reg !! k) = None)
    by (destruct key as [k|]; simpl; auto).
  rewrite Hp. split; [reflexivity|]. split.
  - intros n Hn. now rewrite meta_lookup_key.
  - intros n v Hv. apply meta_lookup in Hv as [_ ->]. reflexivity.
Qed.

Lemma init_plugin_absent_witness :
  let self := PluginConfig.__init__ demo_registry None (Some "other") None (PyBool false) in
  PluginConfig.plugin self = None
  /\ (forall n, n ∈ PluginConfig.meta_keys -> PluginConfig.meta self !! n = Some PyNone)
  /\ (forall n v, PluginConfig.meta self !! n = Some v -> v = PyNone).
Proof.
  apply (init_plugin_absent demo_registry None (Some "other") None (PyBool false)).
  intros k Hk. inversion Hk; subst. vm_compute. reflexivity.
Defined.

(** C10.  When the key of a [PluginConfig] is in the plugin registry, every
    value of [meta] is a string: under each of the ten keys it is [str] of
    the plugin's attribute, and [str(None)], the string ["None"], when the
    plugin has no such attribute. *)
Theorem init_plugin_present (reg : Registry) (pk : option Z) (k : string)
        (name : option string) (active : pyval) (p : Plugin) :
  plugins reg !! k = Some p ->
  let self := PluginConfig.__init__ reg pk (Some k) name active in
  PluginConfig.plugin self = Some p
  /\ (forall n v, PluginConfig.meta self !! n = Some v -> exists s, v = PyStr s)
  /\ (forall n, n ∈ PluginConfig.meta_keys ->
        PluginConfig.meta self !! n = Some (PyStr (py_str (getattr_or_None p n))))
  /\ (forall n, n ∈ PluginConfig.meta_keys -> attributes p !! n = None ->
        PluginConfig.meta self !! n = Some (PyStr "None")).
Proof.
  intros Hp self. subst self. unfold PluginConfig.__init__.
  cbn [PluginConfig.meta PluginConfig.plugin mbind option_bind]. rewrite Hp.
  split; [reflexivity|]. split; [|split].
  - intros n v Hv. apply meta_lookup in Hv as [_ ->]. simpl. eauto.
  - intros n Hn. now rewrite meta_lookup_key.
  - intros n Hn Hnone. rewrite meta_lookup_key by assumption.
    simpl. unfold getattr_or_None. now rewrite Hnone.
Qed.

Lemma init_plugin_present_witness :
  let self := PluginConfig.__init__ demo_registry None (Some "sample") None (PyBool true) in
  PluginConfig.plugin self = Some demo_plugin
  /\ (forall n v, PluginConfig.meta self !! n = Some v -> exists s, v = PyStr s)
  /\ (forall n, n ∈ PluginConfig.meta_keys ->
        PluginConfig.meta self !! n = Some (PyStr (py_str (getattr_or_None demo_plugin n))))
  /\ (forall n, n ∈ PluginConfig.meta_keys -> attributes demo_plugin !! n = None ->
        PluginConfig.meta self !! n = Some (PyStr "None")).
Proof.
  apply (init_plugin_present demo_registry None "sample" None (PyBool true) demo_plugin).
  vm_compute. reflexivity.
Defined.

Example init_plugin_present_values :
  let self := PluginConfig.__init__ demo_registry None (Some "sample") None (PyBool true) in
  PluginConfig.meta self !! "slug" = Some (PyStr "sample")
  /\ PluginConfig.meta self !! "version" = Some (PyStr "2")
  /\ PluginConfig.meta self !! "author" = Some (PyStr "None")
  /\ PluginConfig.meta self !! "website" = Some (PyStr "None")
  /\ PluginConfig.meta self !! "name" = None.
Proof. vm_compute. repeat split. Qed.

(** C4.  [mixins] never raises [AttributeError] or [ValueError]: when
    reading the mixin registry of the plugin raises one of them, [mixins]
    returns the empty mapping. *)
Theorem mixins_catches (self : PluginConfig.t) (e : exn) :
  e ∈ [AttributeError; ValueError] ->
  PluginConfig.mixins self <> Raise e
  /\ (PluginConfig.read_mixinreg self = AttrRaises e ->
      PluginConfig.mixins self = Return ∅).
Proof.
  intros He. unfold PluginConfig.mixins.
  assert (Hc : caught_by [AttributeError; ValueError] e = true).
  { apply elem_of_cons in He as [->|He]; [reflexivity|].
    apply list_elem_of_singleton in He as ->. reflexivity. }
  split.
  - destruct (PluginConfig.read_mixinreg self) as [reg|e']; [discriminate|].
    destruct (caught_by _ e') eqn:Hc'; [discriminate|].
    intros Heq. inversion Heq; subst. congruence.
  - intros ->. now rewrite Hc.
Qed.

Lemma mixins_catches_witness :
  let self := PluginConfig.__init__ demo_registry None (Some "other") None (PyBool false) in
  PluginConfig.mixins self <> Raise AttributeError
  /\ (PluginConfig.read_mixinreg self = AttrRaises AttributeError ->
      PluginConfig.mixins self = Return ∅).
Proof.
  apply (mixins_catches
           (PluginConfig.__init__ demo_registry None (Some "other") None (PyBool false))
           AttributeError).
  apply (bool_decide_unpack _). vm_compute. exact I.
Defined.

Example mixins_of_plugin :
  PluginConfig.mixins
    (PluginConfig.__init__ demo_registry None (Some "sample") None (PyBool true))
  = Return {["settings" := "SettingsMixin"]}.
Proof. vm_compute. reflexivity. Qed.

Example mixins_propagates_other_errors (self : PluginConfig.t) :
  PluginConfig.read_mixinreg self = AttrRaises KeyError ->
  PluginConfig.mixins self = Raise KeyError.
Proof. unfold PluginConfig.mixins. now intros ->. Qed.

(** ** [PluginConfig.save] *)

Section save_properties.

Variable super_save :
  PluginConfig.t -> pyval -> pyval -> list pyval -> gmap string pyval ->
  World -> result (pyval * option Z) * World.
Variable reload_plugins : World -> result unit * World.

Abbreviation save := (PluginConfig.save super_save reload_plugins).

(** What [save] does, case by case. *)
Lemma save_unfold (self : PluginConfig.t) (fi fu : pyval) (args : list pyval)
      (kwargs : gmap string pyval) (s : State) :
  save self fi fu args kwargs s
  = match super_save self fi fu args (delete "no_reload" kwargs) (world s) with
    | (Raise e, w) => (Raise e, {| world := w; calls := calls s |})
    | (Return r, w) =>
        if negb (py_truthy (default (PyBool false) (kwargs !! "no_reload")))
           && ((py_is_False (PluginConfig.active self)
                && py_is_True (PluginConfig.__org_active self))
               || (py_is_True (PluginConfig.active self)
                   && py_is_False (PluginConfig.__org_active self)))
        then
          match reload_plugins w with
          | (Return _, w') =>
              (Return (r.1, PluginConfig.set_pk self r.2),
               {| world := w'; calls := calls s ++ [reload_plugins_called] |})
          | (Raise e, w') =>
              (Raise e, {| world := w'; calls := calls s ++ [reload_plugins_called] |})
          end
        else (Return (r.1, PluginConfig.set_pk self r.2),
              {| world := w; calls := calls s |})
    end.
Proof.
  unfold PluginConfig.save, mbind, M_bind, lift, mret, M_ret, emit.
  destruct (super_save self fi fu args (delete "no_reload" kwargs) (world s))
    as [[r|e] w]; [|reflexivity].
  cbn [PluginConfig.active PluginConfig.__org_active PluginConfig.set_pk fst snd world calls].
  destruct (py_truthy (default (PyBool false) (kwargs !! "no_reload"))); cbn [negb andb];
    [reflexivity|].
  destruct (_ || _); [|reflexivity].
  cbn [world calls]. destruct (reload_plugins w) as [[[]|e] w']; reflexivity.
Qed.

End save_properties.

(** C1, as amended.  When [save] is called without a true [no_reload] and
    the underlying save returns, [save] calls [registry.reload_plugins]
    exactly once if [active] differs from what it was when the instance was
    constructed.  If it does not differ, [save] makes no such call. *)
Theorem save_reloads_on_transition
        (super_save : PluginConfig.t -> pyval -> pyval -> list pyval ->
                      gmap string pyval -> World -> result (pyval * option Z) * World)
        (reload_plugins : World -> result unit * World)
        (self : PluginConfig.t) (fi fu : pyval) (args : list pyval)
        (kwargs : gmap string pyval) (s : State) (was now : bool) :
  PluginConfig.__org_active self = PyBool was ->
  PluginConfig.active self = PyBool now ->
  let s' := (PluginConfig.save super_save reload_plugins self fi fu args kwargs s).2 in
  (was <> now ->
   py_truthy (default (PyBool false) (kwargs !! "no_reload")) = false ->
   (exists r w, super_save self fi fu args (delete "no_reload" kwargs) (world s)
                = (Return r, w)) ->
   calls s' = calls s ++ [reload_plugins_called]
   /\ reload_count s' = S (reload_count s))
  /\ (was = now -> calls s' = calls s /\ reload_count s' = reload_count s).
Proof.
  intros Hwas Hnow s'. subst s'. rewrite save_unfold, Hwas, Hnow. split.
  - intros Hne Hflag (r & w & Hsave). rewrite Hsave, Hflag.
    assert (Ht : (py_is_False (PyBool now) && py_is_True (PyBool was)
                  || py_is_True (PyBool now) && py_is_False (PyBool was)) = true)
      by (destruct was, now; simpl; congruence).
    rewrite Ht. cbn [negb andb].
    assert (Hc : forall w', reload_count {| world := w';
                                calls := calls s ++ [reload_plugins_called] |}
                            = S (reload_count s)).
    { intros w'. unfold reload_count. cbn [calls].
      rewrite filter_app, length_app. simpl. lia. }
    destruct (reload_plugins w) as [[[]|e] w']; cbn [snd calls]; auto.
  - intros ->.
    assert (Ht : (py_is_False (PyBool now) && py_is_True (PyBool now)
                  || py_is_True (PyBool now) && py_is_False (PyBool now)) = false)
      by (destruct now; reflexivity).
    rewrite Ht, andb_false_r.
    destruct (super_save _ _ _ _ _ _) as [[r|e] w]; cbn [snd calls]; auto.
Qed.

Lemma save_reloads_on_transition_witness :
  let self := set_active demo_config (PyBool true) in
  let s' := (PluginConfig.save PluginConfig.Model_save reload_nothing self
               (PyBool false) (PyBool false) [] ∅ demo_state).2 in
  calls s' = [reload_plugins_called] /\ reload_count s' = 1%nat.
Proof.
  apply (proj1 (save_reloads_on_transition PluginConfig.Model_save reload_nothing
                  (set_active demo_config (PyBool true))
                  (PyBool false) (PyBool false) [] ∅ demo_state false true
                  eq_refl eq_refl)).
  - discriminate.
  - reflexivity.
  - eexists _, _. vm_compute. reflexivity.
Defined.

(** C1, as stated, fails: the active flag of this instance went from false
    to true, the save succeeds, and with [no_reload=True] no call to
    [registry.reload_plugins] is made. *)
Lemma save_transition_without_reload :
  let self := set_active demo_config (PyBool true) in
  PluginConfig.__org_active self = PyBool false
  /\ PluginConfig.active self = PyBool true
  /\ exists r s',
      PluginConfig.save PluginConfig.Model_save reload_nothing self
        (PyBool false) (PyBool false) [] {["no_reload" := PyBool true]} demo_state
      = (Return r, s')
      /\ calls s' = []
      /\ reload_count s' = 0%nat.
Proof.
  split; [reflexivity|]. split; [reflexivity|].
  eexists _, _. split; [vm_compute; reflexivity|]. split; reflexivity.
Qed.

(** C9.  With [no_reload=True], [save] is the underlying save and nothing
    more: it passes on the other arguments, returns what the underlying
    save returns or raises what it raises, leaves the world as the
    underlying save leaves it, and makes no call to
    [registry.reload_plugins], whatever [active] is and was. *)
Theorem save_no_reload
        (super_save : PluginConfig.t -> pyval -> pyval -> list pyval ->
                      gmap string pyval -> World -> result (pyval * option Z) * World)
        (reload_plugins : World -> result unit * World)
        (self : PluginConfig.t) (fi fu : pyval) (args : list pyval)
        (kwargs : gmap string pyval) (s : State) :
  kwargs !! "no_reload" = Some (PyBool true) ->
  let base := super_save self fi fu args (delete "no_reload" kwargs) (world s) in
  let out := PluginConfig.save super_save reload_plugins self fi fu args kwargs s in
  out.1 = match base.1 with
          | Return r => Return (r.1, PluginConfig.set_pk self r.2)
          | Raise e => Raise e
          end
  /\ world out.2 = base.2
  /\ calls out.2 = calls s
  /\ reload_count out.2 = reload_count s.
Proof.
  intros Hflag base out. subst base out. rewrite save_unfold, Hflag.
  cbn [default from_option id py_truthy negb andb].
  destruct (super_save _ _ _ _ _ _) as [[r|e] w]; cbn [fst snd world calls]; auto.
Qed.

Lemma save_no_reload_witness :
  let self := set_active demo_config (PyBool true) in
  let kwargs : gmap string pyval := {["no_reload" := PyBool true]} in
  let base := PluginConfig.Model_save self (PyBool false) (PyBool false) []
                (delete "no_reload" kwargs) (world demo_state) in
  let out := PluginConfig.save PluginConfig.Model_save reload_nothing self
               (PyBool false) (PyBool false) [] kwargs demo_state in
  out.1 = match base.1 with
          | Return r => Return (r.1, PluginConfig.set_pk self r.2)
          | Raise e => Raise e
          end
  /\ world out.2 = base.2
  /\ calls out.2 = calls demo_state
  /\ reload_count out.2 = reload_count demo_state.
Proof.
  apply (save_no_reload PluginConfig.Model_save reload_nothing
           (set_active demo_config (PyBool true)) (PyBool false) (PyBool false) []
           {["no_reload" := PyBool true]} demo_state).
  vm_compute. reflexivity.
Defined.

(** When the underlying save raises, the reload is not reached: the
    configuration below was constructed inactive, is now active, and its
    key is already stored. *)
Example save_failure_skips_reload :
  PluginConfig.save PluginConfig.Model_save reload_nothing
    (set_active demo_config (PyBool true)) (PyBool false) (PyBool false) [] ∅
    demo_config_state
  = (Raise IntegrityError, demo_config_state).
Proof. vm_compute. reflexivity. Qed.

(** [is True] and [is False] do not hold of the integers 1 and 0: an
    instance constructed with [active=0] and saved with [active=1] does not
    reload either. *)
Example save_integer_flag :
  let self := set_active
                (PluginConfig.__init__ demo_registry None (Some "sample") None (PyInt 0))
                (PyInt 1) in
  exists r s',
    PluginConfig.save PluginConfig.Model_save reload_nothing self
      (PyBool false) (PyBool false) [] ∅ demo_state = (Return r, s')
    /\ calls s' = [].
Proof. eexists _, _. split; vm_compute; reflexivity. Qed.

(** ** The uniqueness constraints *)

Section constraints.

Variable sch : db.Schema.

Lemma agree_on_sym (cols : list string) (r1 r2 : db.row) :
  db.agree_on cols r1 r2 = db.agree_on cols r2 r1.
Proof.
  unfold db.agree_on. induction cols as [|c cols IH]; [reflexivity|].
  simpl. rewrite IH. f_equal.
  destruct (r1 !! c) as [a|], (r2 !! c) as [b|]; try reflexivity.
  apply bool_decide_ext. split; congruence.
Qed.

(** Rows that collide on a set of columns have the same value, and not
    NULL, in each of them. *)
Lemma agree_on_lookup (cols : list string) (r1 r2 : db.row) (c : string) :
  db.agree_on cols r1 r2 = true -> c ∈ cols ->
  exists v, r1 !! c = Some v /\ r2 !! c = Some v.
Proof.
  unfold db.agree_on. rewrite forallb_forall. intros H Hc.
  apply list_elem_of_In in Hc. specialize (H c Hc).
  destruct (r1 !! c) as [a|], (r2 !! c) as [b|]; try discriminate.
  apply bool_decide_eq_true_1 in H. subst. eauto.
Qed.

Lemma agree_on_intro (cols : list string) (r1 r2 : db.row) :
  (forall c, c ∈ cols -> is_Some (r1 !! c) /\ r1 !! c = r2 !! c) ->
  db.agree_on cols r1 r2 = true.
Proof.
  intros H. unfold db.agree_on. apply forallb_forall. intros c Hc.
  apply list_elem_of_In in Hc. destruct (H c Hc) as [[v Hv] Heq].
  rewrite <- Heq, Hv. now apply bool_decide_eq_true_2.
Qed.

Lemma violates_unique_true (t : db.table) (pk pk0 : Z) (r r0 : db.row)
      (cols : list string) :
  cols ∈ db.constraints sch -> t !! pk0 = Some r0 -> pk0 <> pk ->
  db.agree_on cols r r0 = true ->
  db.violates_unique sch t pk r = true.
Proof.
  intros Hcols Hr0 Hne Hagree. unfold db.violates_unique.
  apply existsb_exists. exists cols. split; [now apply list_elem_of_In|].
  apply existsb_exists. exists (pk0, r0). split.
  - apply list_elem_of_In. now apply elem_of_map_to_list.
  - simpl. rewrite Hagree, bool_decide_eq_false_2 by assumption. reflexivity.
Qed.

Lemma violates_unique_false (t : db.table) (pk pk0 : Z) (r r0 : db.row)
      (cols : list string) :
  db.violates_unique sch t pk r = false ->
  cols ∈ db.constraints sch -> t !! pk0 = Some r0 -> pk0 <> pk ->
  db.agree_on cols r r0 = false.
Proof.
  intros Hv Hcols Hr0 Hne.
  destruct (db.agree_on cols r r0) eqn:Hagree; [|reflexivity].
  rewrite (violates_unique_true t pk pk0 r r0 cols) in Hv by assumption.
  discriminate.
Qed.

(** Writing a row that passed the checks keeps the constraints. *)
Lemma consistent_write (t : db.table) (pk : Z) (r : db.row) :
  db.consistent sch t ->
  db.not_null_ok sch r = true ->
  db.violates_unique sch t pk r = false ->
  db.consistent sch (<[pk := r]> t).
Proof.
  intros Hcons Hnn Hv pk1 r1 H1.
  destruct (decide (pk1 = pk)) as [->|Hne1].
  - rewrite lookup_insert_eq in H1. inversion H1; subst r1. split; [exact Hnn|].
    intros cols pk' r' Hcols H' Hne'. rewrite lookup_insert_ne in H' by congruence.
    eapply violates_unique_false; eauto.
  - rewrite lookup_insert_ne in H1 by congruence.
    destruct (Hcons pk1 r1 H1) as [Hnn1 Huniq]. split; [exact Hnn1|].
    intros cols pk' r' Hcols H' Hne'.
    destruct (decide (pk' = pk)) as [->|Hne2].
    + rewrite lookup_insert_eq in H'. inversion H'; subst r'.
      rewrite agree_on_sym. eapply violates_unique_false; eauto.
    + rewrite lookup_insert_ne in H' by congruence. eauto.
Qed.

Lemma consistent_delete (t : db.table) (pk : Z) :
  db.consistent sch t -> db.consistent sch (db.sql_delete t pk).
Proof.
  intros Hcons pk1 r1 H1. unfold db.sql_delete in *.
  apply lookup_delete_Some in H1 as [_ H1].
  destruct (Hcons pk1 r1 H1) as [Hnn Huniq]. split; [exact Hnn|].
  intros cols pk' r' Hcols H' Hne'. apply lookup_delete_Some in H' as [_ H']. eauto.
Qed.

(** The constraints hold in every table that statements can build. *)
Lemma reachable_consistent (t : db.table) :
  db.reachable sch t -> db.consistent sch t.
Proof.
  induction 1 as [|t pk r pk' t' _ IH Hins|t pk r t' _ IH Hupd|t pk _ IH].
  - intros pk r H. rewrite lookup_empty in H. discriminate.
  - unfold db.sql_insert in Hins.
    destruct (db.not_null_ok sch r) eqn:Hnn; [|discriminate].
    destruct (bool_decide _); [discriminate|].
    destruct (db.violates_unique sch t _ r) eqn:Hv; [discriminate|].
    simpl in Hins. inversion Hins; subst. now apply consistent_write.
  - unfold db.sql_update in Hupd. destruct (t !! pk); [|inversion Hupd].
    destruct (db.not_null_ok sch r) eqn:Hnn; [|discriminate].
    destruct (db.violates_unique sch t pk r) eqn:Hv; [discriminate|].
    simpl in Hupd. inversion Hupd; subst. now apply consistent_write.
  - now apply consistent_delete.
Qed.

(** A row that collides with a stored row cannot be inserted. *)
Lemma sql_insert_conflict (t : db.table) (pk : option Z) (r r0 : db.row)
      (pk0 : Z) (cols : list string) :
  cols ∈ db.constraints sch -> t !! pk0 = Some r0 ->
  db.agree_on cols r r0 = true ->
  db.sql_insert sch t pk r = (Raise IntegrityError, t).
Proof.
  intros Hcols Hr0 Hagree. unfold db.sql_insert.
  destruct (db.not_null_ok sch r); [|reflexivity]. simpl.
  destruct (bool_decide (is_Some (t !! default (db.next_pk t) pk))) eqn:Hused;
    [reflexivity|]. simpl.
  rewrite (violates_unique_true t _ pk0 r r0 cols); auto.
  intros ->. apply bool_decide_eq_false_1 in Hused. apply Hused. eauto.
Qed.

(** Nor can another row be updated to collide with it. *)
Lemma sql_update_conflict (t : db.table) (pk pk0 : Z) (r r0 : db.row)
      (cols : list string) :
  cols ∈ db.constraints sch -> t !! pk0 = Some r0 -> pk0 <> pk ->
  db.agree_on cols r r0 = true -> is_Some (t !! pk) ->
  db.sql_update sch t pk r = (Raise IntegrityError, t).
Proof.
  intros Hcols Hr0 Hne Hagree [r1 Hr1]. unfold db.sql_update. rewrite Hr1.
  destruct (db.not_null_ok sch r); [|reflexivity]. simpl.
  now rewrite (violates_unique_true t pk pk0 r r0 cols).
Qed.

End constraints.

(** The key given to a row inserted without one is not in use. *)
Lemma next_pk_fresh (t : db.table) : t !! db.next_pk t = None.
Proof.
  assert (H : forall pk r, t !! pk = Some r -> (pk < db.next_pk t)%Z).
  { intros pk r Hr. apply elem_of_map_to_list in Hr. unfold db.next_pk.
    induction (map_to_list t) as [|e l IH]; [inversion Hr|].
    apply elem_of_cons in Hr as [<-|Hr]; simpl; [lia|].
    specialize (IH Hr). lia. }
  destruct (t !! db.next_pk t) as [r|] eqn:E; [|reflexivity].
  apply H in E. lia.
Qed.

(** ** [PluginConfig.key] *)

Lemma prepare_key (self : PluginConfig.t) (r : db.row) :
  PluginConfig.prepare self = Return r ->
  r !! "key" = db.VStr <$> PluginConfig.key self.
Proof.
  unfold PluginConfig.prepare.
  set (r0 := PluginConfig.set_col "key" _ _).
  assert (H0 : r0 !! "key" = db.VStr <$> PluginConfig.key self).
  { subst r0. destruct (PluginConfig.key self) as [k|]; simpl.
    - apply lookup_insert_eq.
    - destruct (PluginConfig.name self); simpl;
        [rewrite lookup_insert_ne by discriminate|]; apply lookup_empty. }
  assert (H1 : forall b, (<["active" := db.VBool b]> r0 : db.row) !! "key"
                         = db.VStr <$> PluginConfig.key self)
    by (intros b; now rewrite lookup_insert_ne by discriminate).
  destruct (PluginConfig.active self) as [|b|z|s|o]; intros Hr.
  - now inversion Hr.
  - inversion Hr; subst. apply H1.
  - destruct (PluginConfig.BooleanField_to_python (PyInt z)); inversion Hr; subst. apply H1.
  - destruct (PluginConfig.BooleanField_to_python (PyStr s)); inversion Hr; subst. apply H1.
  - discriminate.
Qed.

Lemma set_plugin_pluginconfig_same (s : State) :
  {| world := PluginConfig.set_plugin_pluginconfig (world s)
                (plugin_pluginconfig (database (world s)));
     calls := calls s |} = s.
Proof. destruct s as [[[a b c] reg us] cs]. reflexivity. Qed.

(** Saving an instance whose key is the key of another stored record
    fails and changes nothing. *)
Lemma Model_save_duplicate_key (w : World) (self : PluginConfig.t) (pk0 : Z)
      (r0 : db.row) (k : string) (fi fu : pyval) :
  plugin_pluginconfig (database w) !! pk0 = Some r0 ->
  r0 !! "key" = Some (db.VStr k) ->
  PluginConfig.key self = Some k ->
  PluginConfig.pk self <> Some pk0 ->
  exists e,
    db.Model_save PluginConfig.schema (PluginConfig.pk self)
      (PluginConfig.prepare self) fi fu (plugin_pluginconfig (database w))
    = (Raise e, plugin_pluginconfig (database w))
    /\ (py_truthy fu = false ->
        (exists b, PluginConfig.active self = PyBool b) -> e = IntegrityError).
Proof.
  intros Hr0 Hk0 Hk Hpk. set (t := plugin_pluginconfig (database w)) in *.
  assert (Hcols : ["key"] ∈ db.constraints PluginConfig.schema) by (vm_compute; left).
  assert (Hagree : forall r, PluginConfig.prepare self = Return r ->
                             db.agree_on ["key"] r r0 = true).
  { intros r Hr. apply prepare_key in Hr. rewrite Hk in Hr. simpl in Hr.
    unfold db.agree_on. simpl. rewrite Hr, Hk0.
    rewrite bool_decide_eq_true_2 by reflexivity. reflexivity. }
  assert (Hbool : (exists b, PluginConfig.active self = PyBool b) ->
                  exists r, PluginConfig.prepare self = Return r).
  { intros [b Hb]. unfold PluginConfig.prepare. rewrite Hb. simpl. eauto. }
  unfold db.Model_save.
  destruct (py_truthy fi) eqn:Hfi, (py_truthy fu) eqn:Hfu; cbn [andb].
  - eexists. split; [reflexivity|]. discriminate.
  - destruct (PluginConfig.prepare self) as [r|e] eqn:Hprep.
    + rewrite (sql_insert_conflict _ t _ r r0 pk0 ["key"]) by auto.
      destruct (PluginConfig.pk self); eexists; split; reflexivity || auto.
    + destruct (PluginConfig.pk self); eexists; (split; [reflexivity|]);
        intros _ Hb; destruct (Hbool Hb); congruence.
  - destruct (PluginConfig.pk self) as [p|].
    + destruct (PluginConfig.prepare self) as [r|e] eqn:Hprep;
        [|eexists; split; [reflexivity|discriminate]].
      destruct (t !! p) as [r1|] eqn:Hp.
      * rewrite (sql_update_conflict _ t p pk0 r r0 ["key"]) by (eauto; congruence).
        eexists. split; [reflexivity|discriminate].
      * unfold db.sql_update. rewrite Hp. eexists. split; [reflexivity|discriminate].
    + eexists. split; [reflexivity|discriminate].
  - destruct (PluginConfig.prepare self) as [r|e] eqn:Hprep.
    + rewrite (sql_insert_conflict _ t _ r r0 pk0 ["key"]) by auto.
      destruct (PluginConfig.pk self) as [p|]; [|eexists; split; reflexivity || auto].
      destruct (t !! p) as [r1|] eqn:Hp.
      * rewrite (sql_update_conflict _ t p pk0 r r0 ["key"]) by (eauto; congruence).
        eexists. split; reflexivity || auto.
      * unfold db.sql_update. rewrite Hp. eexists. split; reflexivity || auto.
    + destruct (PluginConfig.pk self); eexists; (split; [reflexivity|]);
        intros _ Hb; destruct (Hbool Hb); congruence.
Qed.

(** C5.  In every table of [PluginConfig] records that the database can
    hold, two distinct records have different keys; and saving a record
    whose key is the key of another stored record fails: [save] raises
    ([IntegrityError], when the arguments and the fields are otherwise in
    order) and leaves the database, and the record of calls, as they
    were. *)
Theorem PluginConfig_key_unique (t : db.table) :
  db.reachable PluginConfig.schema t ->
  (forall pk1 pk2 r1 r2,
      t !! pk1 = Some r1 -> t !! pk2 = Some r2 -> pk1 <> pk2 ->
      r1 !! "key" <> r2 !! "key")
  /\ (forall (reload_plugins : World -> result unit * World) (s : State)
             (self : PluginConfig.t) (pk0 : Z) (r0 : db.row) (fi fu : pyval)
             (kwargs : gmap string pyval),
         plugin_pluginconfig (database (world s)) = t ->
         t !! pk0 = Some r0 ->
         r0 !! "key" = db.VStr <$> PluginConfig.key self ->
         PluginConfig.pk self <> Some pk0 ->
         delete "no_reload" kwargs = ∅ ->
         exists e,
           PluginConfig.save PluginConfig.Model_save reload_plugins self fi fu []
             kwargs s = (Raise e, s)
           /\ (py_truthy fu = false ->
               (exists b, PluginConfig.active self = PyBool b) ->
               e = IntegrityError)).
Proof.
  intros Hreach. apply reachable_consistent in Hreach.
  assert (Hkey : forall pk r, t !! pk = Some r -> is_Some (r !! "key")).
  { intros pk r Hr. destruct (Hreach pk r Hr) as [Hnn _].
    unfold db.not_null_ok in Hnn. simpl in Hnn.
    apply andb_prop in Hnn as [Hnn _]. now apply bool_decide_eq_true_1 in Hnn. }
  split.
  - intros pk1 pk2 r1 r2 H1 H2 Hne Heq.
    destruct (Hreach pk1 r1 H1) as [_ Huniq].
    assert (Hcols : ["key"] ∈ db.constraints PluginConfig.schema) by (vm_compute; left).
    specialize (Huniq ["key"] pk2 r2 Hcols H2 (not_eq_sym Hne)).
    rewrite agree_on_intro in Huniq; [discriminate|].
    intros c Hc. apply list_elem_of_singleton in Hc as ->. split; [eauto|exact Heq].
  - intros reload_plugins s self pk0 r0 fi fu kwargs Ht Hr0 Hk Hpk Hkw.
    destruct (Hkey pk0 r0 Hr0) as [v Hv]. rewrite Hv in Hk.
    destruct (PluginConfig.key self) as [k|] eqn:Hself; [|discriminate].
    simpl in Hk. inversion Hk; subst v. subst t.
    destruct (Model_save_duplicate_key (world s) self pk0 r0 k fi fu Hr0 Hv Hself Hpk)
      as (e & Hsave & He).
    exists e. split; [|exact He].
    rewrite save_unfold, Hkw. unfold PluginConfig.Model_save.
    rewrite map_to_list_empty. cbn [fmap list_fmap forallb negb orb length Nat.ltb Nat.leb].
    rewrite !bool_decide_eq_true_2 by reflexivity. cbn [negb orb].
    rewrite Hsave. now rewrite set_plugin_pluginconfig_same.
Qed.

Lemma PluginConfig_key_unique_witness :
  (forall pk1 pk2 r1 r2,
      demo_config_table !! pk1 = Some r1 -> demo_config_table !! pk2 = Some r2 ->
      pk1 <> pk2 -> r1 !! "key" <> r2 !! "key")
  /\ (forall (reload_plugins : World -> result unit * World) (s : State)
             (self : PluginConfig.t) (pk0 : Z) (r0 : db.row) (fi fu : pyval)
             (kwargs : gmap string pyval),
         plugin_pluginconfig (database (world s)) = demo_config_table ->
         demo_config_table !! pk0 = Some r0 ->
         r0 !! "key" = db.VStr <$> PluginConfig.key self ->
         PluginConfig.pk self <> Some pk0 ->
         delete "no_reload" kwargs = ∅ ->
         exists e,
           PluginConfig.save PluginConfig.Model_save reload_plugins self fi fu []
             kwargs s = (Raise e, s)
           /\ (py_truthy fu = false ->
               (exists b, PluginConfig.active self = PyBool b) ->
               e = IntegrityError)).
Proof.
  apply (PluginConfig_key_unique demo_config_table).
  eapply (db.reach_insert _ ∅ None demo_config_row 1%Z); [constructor|].
  vm_compute. reflexivity.
Defined.

(** A second configuration with the key of the stored one is refused. *)
Example save_duplicate_key :
  PluginConfig.save PluginConfig.Model_save reload_nothing demo_config
    (PyBool false) (PyBool false) [] ∅ demo_config_state
  = (Raise IntegrityError, demo_config_state).
Proof. vm_compute. reflexivity. Qed.

(** A configuration with another key is stored, under the next primary
    key. *)
Example save_other_key :
  let self := PluginConfig.__init__ demo_registry None (Some "other") None (PyBool true) in
  exists s',
    PluginConfig.save PluginConfig.Model_save reload_nothing self
      (PyBool false) (PyBool false) [] ∅ demo_config_state
    = (Return (PyNone, PluginConfig.set_pk self (Some 2%Z)), s')
    /\ size (plugin_pluginconfig (database (world s'))) = 2%nat.
Proof. eexists. split; vm_compute; reflexivity. Qed.

(** ** [PluginSetting] and [NotificationUserSetting] rows *)

(** C6.  In every table of [PluginSetting] rows that the database can hold,
    no two distinct rows have both the same plugin and the same key; and
    inserting a row whose plugin and key are those of a stored row fails
    with [IntegrityError] and leaves the table as it was. *)
Theorem PluginSetting_unique (t : db.table) :
  db.reachable PluginSetting.schema t ->
  (forall pk1 pk2 r1 r2,
      t !! pk1 = Some r1 -> t !! pk2 = Some r2 -> pk1 <> pk2 ->
      ~ (r1 !! "plugin" = r2 !! "plugin" /\ r1 !! "key" = r2 !! "key"))
  /\ (forall (pk : option Z) (r : db.row) (pk0 : Z) (r0 : db.row),
         t !! pk0 = Some r0 ->
         r !! "plugin" = r0 !! "plugin" -> r !! "key" = r0 !! "key" ->
         db.sql_insert PluginSetting.schema t pk r = (Raise IntegrityError, t)).
Proof.
  intros Hreach. apply reachable_consistent in Hreach.
  assert (Hcols : ["plugin"; "key"] ∈ db.constraints PluginSetting.schema)
    by (vm_compute; left).
  assert (Hnn : forall pk r, t !! pk = Some r ->
                             is_Some (r !! "plugin") /\ is_Some (r !! "key")).
  { intros pk r Hr. destruct (Hreach pk r Hr) as [Hnn _].
    unfold db.not_null_ok in Hnn. simpl in Hnn.
    apply andb_prop in Hnn as [Hk Hnn]. apply andb_prop in Hnn as [_ Hnn].
    apply andb_prop in Hnn as [Hp _].
    apply bool_decide_eq_true_1 in Hk, Hp. auto. }
  assert (Hagree : forall r r0 pk0, t !! pk0 = Some r0 ->
             r !! "plugin" = r0 !! "plugin" -> r !! "key" = r0 !! "key" ->
             db.agree_on ["plugin"; "key"] r r0 = true).
  { intros r r0 pk0 Hr0 Hp Hk. destruct (Hnn pk0 r0 Hr0) as [Hp0 Hk0].
    apply agree_on_intro. intros c Hc.
    apply elem_of_cons in Hc as [->|Hc];
      [|apply list_elem_of_singleton in Hc as ->]; split; congruence. }
  split.
  - intros pk1 pk2 r1 r2 H1 H2 Hne [Hp Hk].
    destruct (Hreach pk1 r1 H1) as [_ Huniq].
    specialize (Huniq _ pk2 r2 Hcols H2 (not_eq_sym Hne)).
    rewrite (Hagree r1 r2 pk2) in Huniq by assumption. discriminate.
  - intros pk r pk0 r0 Hr0 Hp Hk.
    eapply sql_insert_conflict; eauto.
Qed.

Lemma PluginSetting_unique_witness :
  (forall pk1 pk2 r1 r2,
      demo_setting_table !! pk1 = Some r1 -> demo_setting_table !! pk2 = Some r2 ->
      pk1 <> pk2 ->
      ~ (r1 !! "plugin" = r2 !! "plugin" /\ r1 !! "key" = r2 !! "key"))
  /\ (forall (pk : option Z) (r : db.row) (pk0 : Z) (r0 : db.row),
         demo_setting_table !! pk0 = Some r0 ->
         r !! "plugin" = r0 !! "plugin" -> r !! "key" = r0 !! "key" ->
         db.sql_insert PluginSetting.schema demo_setting_table pk r
         = (Raise IntegrityError, demo_setting_table)).
Proof.
  apply (PluginSetting_unique demo_setting_table).
  eapply (db.reach_insert _ ∅ None demo_setting_row 1%Z); [constructor|].
  vm_compute. reflexivity.
Defined.

Example insert_duplicate_setting :
  db.sql_insert PluginSetting.schema demo_setting_table None
    (<["value" := db.VStr "other"]> demo_setting_row)
  = (Raise IntegrityError, demo_setting_table).
Proof. vm_compute. reflexivity. Qed.

(** The same key for another plugin is a different setting. *)
Example insert_setting_other_plugin :
  (db.sql_insert PluginSetting.schema demo_setting_table None
     (<["plugin" := db.VInt 2]> demo_setting_row)).1 = Return 2%Z.
Proof. vm_compute. reflexivity. Qed.




(** The table of the witness: four rows, those of users 7 and 8 and the two
    without a user, which alone share method, user and key. *)
Example demo_mixed_table_rows :
  size demo_mixed_table = 4%nat
  /\ (demo_mixed_table !! 1%Z ≫= (.!! "user")) = Some (db.VInt 7)
  /\ (demo_mixed_table !! 2%Z ≫= (.!! "user")) = Some (db.VInt 8)
  /\ (demo_mixed_table !! 3%Z ≫= (.!! "user")) = None
  /\ (demo_mixed_table !! 4%Z ≫= (.!! "user")) = None
  /\ demo_mixed_table !! 3%Z = demo_mixed_table !! 4%Z.
Proof. apply (bool_decide_unpack _). vm_compute. exact I. Qed.

(** In that table the setting of user 7 cannot be stored a second time, and
    the setting without a user can be stored a third time. *)
Example demo_mixed_table_inserts :
  db.sql_insert NotificationUserSetting.schema demo_mixed_table None demo_user_row
  = (Raise IntegrityError, demo_mixed_table)
  /\ (db.sql_insert NotificationUserSetting.schema demo_mixed_table None
        demo_nouser_row).1 = Return 5%Z.
Proof. split; vm_compute; reflexivity. Qed.

Lemma NotificationUserSetting_schema_is_over_base :
  NotificationUserSetting.schema
  = NotificationUserSetting_schema_over BaseInvenTreeSetting_columns.
Proof. reflexivity. Qed.

(** The duplicates do not depend on what the base class declares.  Whatever
    its columns are, as long as none of them is declared unique, a row
    without a user that has a value in every required column can be
    inserted into any table, whatever the table holds already. *)
Lemma null_user_row_inserts (base : list db.column) (t : db.table) (r : db.row) :
  (forall c, c ∈ base -> db.unique c = false) ->
  db.not_null_ok (NotificationUserSetting_schema_over base) r = true ->
  r !! "user" = None ->
  db.sql_insert (NotificationUserSetting_schema_over base) t None r
  = (Return (db.next_pk t), <[db.next_pk t := r]> t).
Proof.
  intros Hbase Hnn Huser. unfold db.sql_insert. cbn [default from_option id].
  rewrite Hnn, next_pk_fresh. cbn [negb orb].
  rewrite bool_decide_eq_false_2 by (intros [x Hx]; discriminate). cbn [orb].
  assert (Hcons : db.constraints (NotificationUserSetting_schema_over base)
                  = [ ["method"; "user"; "key"] ]).
  { unfold db.constraints. cbn [db.columns db.unique_together NotificationUserSetting_schema_over].
    rewrite filter_app.
    assert (Hf : filter (fun c => db.unique c = true) base = []).
    { clear Hnn. induction base as [|c base IH]; [reflexivity|].
      rewrite filter_cons, decide_False.
      - apply IH. intros c' Hc'. apply Hbase. now right.
      - rewrite (Hbase c) by left. discriminate. }
    rewrite Hf. reflexivity. }
  assert (Hv : db.violates_unique (NotificationUserSetting_schema_over base) t
                 (db.next_pk t) r = false).
  { unfold db.violates_unique. rewrite Hcons. cbn [existsb]. rewrite orb_false_r.
    induction (map_to_list t) as [|e l IH]; [reflexivity|].
    cbn [existsb]. rewrite IH, orb_false_r.
    unfold db.agree_on. cbn [forallb]. rewrite Huser.
    destruct (r !! "method"), (e.2 !! "method"); cbn; rewrite ?andb_false_r; reflexivity. }
  now rewrite Hv.
Qed.

(** With a user, the second insertion is refused. *)
Example insert_duplicate_user_setting :
  db.sql_insert NotificationUserSetting.schema demo_user_table None demo_user_row
  = (Raise IntegrityError, demo_user_table).
Proof. vm_compute. reflexivity. Qed.

(** ** [PluginSetting.get_setting_definition] *)

Lemma M_bind_run {A B : Type} (c : M A) (f : A -> M B) (s : State) :
  (c ≫= f) s
  = match c s with
    | (Return a, s') => f a s'
    | (Raise e, s') => (Raise e, s')
    end.
Proof. reflexivity. Qed.

(** C8.  A [settings] keyword argument given by the caller is passed on as
    it is, and the registry is not consulted.  Without it, and with a
    plugin given, the definitions passed on are those that
    [registry.mixins_settings] holds under the key of the plugin, or the
    empty dictionary if it holds none; a plugin instance is first replaced
    by its [plugin_config()].  The [plugin] argument itself is not passed
    on. *)
Theorem get_setting_definition_resolution
        (R : Type)
        (super_get_setting_definition : string -> gmap string kwval -> M R)
        (plugin_config : Plugin -> World -> result (option PluginConfig.t) * World)
        (key : string) (kwargs : gmap string kwval) (s : State) :
  let get := PluginSetting.get_setting_definition super_get_setting_definition
               plugin_config key kwargs s in
  let declared (reg : Registry) (c : PluginConfig.t) : SettingsDict :=
    default ∅ (k ← PluginConfig.key c; mixins_settings reg !! k) in
  (forall given, kwargs !! "settings" = Some given ->
     get = super_get_setting_definition key kwargs s)
  /\ (forall c, kwargs !! "settings" = None ->
        kwargs !! "plugin" = Some (KwPluginConfig c) ->
        get = super_get_setting_definition key
                (<["settings" := KwSettings (declared (registry (world s)) c)]>
                   (delete "plugin" kwargs)) s)
  /\ (forall p c w', kwargs !! "settings" = None ->
        kwargs !! "plugin" = Some (KwPlugin p) ->
        plugin_config p (world s) = (Return (Some c), w') ->
        get = super_get_setting_definition key
                (<["settings" := KwSettings (declared (registry w') c)]>
                   (delete "plugin" kwargs))
                {| world := w'; calls := calls s |})
  /\ (forall reg c k, PluginConfig.key c = Some k ->
        declared reg c = default ∅ (mixins_settings reg !! k)).
Proof.
  intros get declared. subst get declared.
  unfold PluginSetting.get_setting_definition. repeat split.
  - intros given ->. reflexivity.
  - intros c -> ->. reflexivity.
  - intros p c w' -> -> Hc. cbn [default from_option id kw_truthy].
    rewrite !M_bind_run. unfold lift. rewrite Hc. reflexivity.
  - intros reg c k ->. reflexivity.
Qed.

Lemma get_setting_definition_resolution_witness :
  PluginSetting.get_setting_definition demo_base_definition demo_plugin_config
    "API_KEY" {["plugin" := KwPlugin demo_plugin]} demo_state
  = demo_base_definition "API_KEY"
      (<["settings" := KwSettings (default ∅ (mixins_settings demo_registry !! "sample"))]>
         (delete "plugin" {["plugin" := KwPlugin demo_plugin]}))
      demo_state.
Proof.
  apply (proj1 (proj2 (proj2 (get_setting_definition_resolution
           (option SettingDef) demo_base_definition demo_plugin_config "API_KEY"
           {["plugin" := KwPlugin demo_plugin]} demo_state)))
         demo_plugin demo_config demo_world).
  - vm_compute. reflexivity.
  - vm_compute. reflexivity.
  - reflexivity.
Defined.

Example get_setting_definition_of_plugin :
  (PluginSetting.get_setting_definition demo_base_definition demo_plugin_config
     "API_KEY" {["plugin" := KwPluginConfig demo_config]} demo_state).1
  = Return (Some {["name" := PyStr "API Key"]}).
Proof. vm_compute. reflexivity. Qed.

(** A plugin without declared settings gets the empty dictionary, in which
    no key is defined. *)
Example get_setting_definition_unknown_plugin :
  (PluginSetting.get_setting_definition demo_base_definition demo_plugin_config
     "API_KEY"
     {["plugin" := KwPluginConfig
                     (PluginConfig.__init__ demo_registry None (Some "other") None
                        (PyBool false))]} demo_state).1
  = Return None.
Proof. vm_compute. reflexivity. Qed.

(** A plugin whose [plugin_config()] is [None] has no key to look up. *)
Example get_setting_definition_no_config :
  (PluginSetting.get_setting_definition demo_base_definition
     (fun _ w => (Return None, w))
     "API_KEY" {["plugin" := KwPlugin demo_plugin]} demo_state).1
  = Raise AttributeError.
Proof. vm_compute. reflexivity. Qed.

Example notification_definition_ignores_given :
  (NotificationUserSetting.get_setting_definition demo_base_definition
     "NOTIFICATION_SEND_EMAILS" {["settings" := KwSettings ∅]} demo_state).1
  = Return (Some {["default" := PyBool true]}).
Proof. vm_compute. reflexivity. Qed.

(** * Further properties *)


(** ** Matching: general facts *)

Lemma ends_Star (a : re.regex) (p : re.pos) :
  re.ends (re.Star a) p = star_ends (re.ends a) (length (re.rest p)) p.
Proof. reflexivity. Qed.

Lemma ends_Plus (a : re.regex) (p : re.pos) :
  re.ends (re.Plus a) p
  = flat_map (star_ends (re.ends a) (length (re.rest p))) (re.ends a p).
Proof. reflexivity. Qed.

Lemma ends_Cat (a b : re.regex) (p : re.pos) :
  re.ends (re.Cat a b) p = flat_map (re.ends b) (re.ends a p).
Proof. reflexivity. Qed.

Lemma ends_step (a : re.regex) (ok : ascii -> bool) (p : re.pos) :
  step_ok a = Some ok ->
  re.ends a p
  = match re.rest p with
    | c :: cs => if ok c
                 then [ {| re.offset := S (re.offset p); re.rest := cs;
                           re.groups := re.groups p |} ]
                 else []
    | [] => []
    end.
Proof. destruct a; intros H; inversion H; subst; reflexivity. Qed.

(** A match ends in the subject where it began or later: what is left at
    an end position is a suffix of what was left at the start. *)
Lemma star_ends_suffix (body : re.pos -> list re.pos) :
  (forall p p', p' ∈ body p -> re.rest p' `suffix_of` re.rest p) ->
  forall n p p', p' ∈ star_ends body n p -> re.rest p' `suffix_of` re.rest p.
Proof.
  intros Hbody. induction n as [|n IH]; intros p p' Hp'; simpl in Hp'.
  - apply list_elem_of_singleton in Hp' as ->. reflexivity.
  - apply elem_of_app in Hp' as [Hp'|Hp'].
    + apply list_elem_of_In, in_flat_map in Hp' as (q & Hq & Hp').
      apply list_elem_of_In in Hq.
      destruct (re.offset p <? re.offset q)%nat; [|inversion Hp'].
      apply list_elem_of_In in Hp'. etrans; [apply (IH _ _ Hp')|apply (Hbody _ _ Hq)].
    + apply list_elem_of_singleton in Hp' as ->. reflexivity.
Qed.

Lemma ends_suffix (r : re.regex) :
  forall p p', p' ∈ re.ends r p -> re.rest p' `suffix_of` re.rest p.
Proof.
  induction r as [| | |c|neg items|a IHa b IHb|a IHa|a IHa|a IHa|name a IHa];
    intros p p' Hp'.
  - apply list_elem_of_singleton in Hp' as ->. reflexivity.
  - simpl in Hp'. destruct (re.offset p =? 0)%nat; [|inversion Hp'].
    apply list_elem_of_singleton in Hp' as ->. reflexivity.
  - simpl in Hp'. destruct (re.rest p) as [|c [|c' l]] eqn:E; try (inversion Hp'; fail).
    + apply list_elem_of_singleton in Hp' as ->. now rewrite E.
    + destruct (Ascii.eqb c "010"); [|inversion Hp'].
      apply list_elem_of_singleton in Hp' as ->. now rewrite E.
  - simpl in Hp'. destruct (re.rest p) as [|c' cs] eqn:E; [inversion Hp'|].
    destruct (Ascii.eqb c c'); [|inversion Hp'].
    apply list_elem_of_singleton in Hp' as ->. simpl. apply suffix_cons_r. reflexivity.
  - simpl in Hp'. destruct (re.rest p) as [|c' cs] eqn:E; [inversion Hp'|].
    destruct (xorb _ _); [|inversion Hp'].
    apply list_elem_of_singleton in Hp' as ->. simpl. apply suffix_cons_r. reflexivity.
  - rewrite ends_Cat in Hp'. apply list_elem_of_In, in_flat_map in Hp' as (q & Hq & Hp').
    apply list_elem_of_In in Hq, Hp'.
    etrans; [apply (IHb _ _ Hp')|apply (IHa _ _ Hq)].
  - rewrite ends_Star in Hp'. eapply star_ends_suffix; eauto.
  - rewrite ends_Plus in Hp'. apply list_elem_of_In, in_flat_map in Hp' as (q & Hq & Hp').
    apply list_elem_of_In in Hq, Hp'.
    etrans; [eapply star_ends_suffix; eauto|apply (IHa _ _ Hq)].
  - simpl in Hp'. apply elem_of_app in Hp' as [Hp'|Hp']; [eauto|].
    apply list_elem_of_singleton in Hp' as ->. reflexivity.
  - simpl in Hp'. destruct name as [n|]; [|eauto].
    apply list_elem_of_fmap in Hp' as (q & -> & Hq). simpl. eauto.
Qed.

(** An expression that requires a character does not match where the
    character does not occur. *)
Lemma requires_sound (c : ascii) (r : re.regex) :
  requires c r = true ->
  forall p, c ∉ re.rest p -> re.ends r p = [].
Proof.
  induction r as [| | |c'|neg items|a IHa b IHb|a IHa|a IHa|a IHa|name a IHa];
    intros Hreq p Hc; simpl in Hreq; try discriminate.
  - simpl. destruct (re.rest p) as [|c'' cs]; [reflexivity|].
    destruct (Ascii.eqb_spec c' c''); [|reflexivity].
    apply Ascii.eqb_eq in Hreq. subst. exfalso. apply Hc. left.
  - rewrite ends_Cat. apply orb_prop in Hreq as [Hreq|Hreq].
    + now rewrite (IHa Hreq p Hc).
    + apply flat_map_nil. intros q Hq. apply (IHb Hreq).
      intros Hin. apply Hc. apply ends_suffix in Hq as [pre ->].
      apply elem_of_app. now right.
  - rewrite ends_Plus. now rewrite (IHa Hreq p Hc).
  - simpl. destruct name; now rewrite (IHa Hreq p Hc).
Qed.

Lemma starts_suffix (n : nat) (s : list ascii) (p : re.pos) :
  p ∈ re.starts n s -> re.rest p `suffix_of` s.
Proof.
  revert n. induction s as [|c s IH]; intros n Hp; simpl in Hp.
  - apply list_elem_of_singleton in Hp as ->. reflexivity.
  - apply elem_of_cons in Hp as [->|Hp]; [reflexivity|].
    apply suffix_cons_r. eapply IH. exact Hp.
Qed.

Lemma search_requires (c : ascii) (r : re.regex) (s : list ascii) :
  requires c r = true -> c ∉ s -> re.search r s = None.
Proof.
  intros Hreq Hc. unfold re.search. rewrite flat_map_nil; [reflexivity|].
  intros p Hp. apply (requires_sound c r Hreq).
  intros Hin. apply Hc. apply starts_suffix in Hp as [pre ->].
  apply elem_of_app. now right.
Qed.

(** *** The first match *)

Lemma first_Cat (a b : re.regex) (p x y : re.pos) :
  head (re.ends a p) = Some x -> head (re.ends b x) = Some y ->
  head (re.ends (re.Cat a b) p) = Some y.
Proof.
  rewrite ends_Cat. destruct (re.ends a p) as [|x' l]; [discriminate|].
  intros Hx. inversion Hx; subst. simpl.
  destruct (re.ends b x) as [|y' l']; [discriminate|]. now intros Hy.
Qed.

Lemma first_Group (n : string) (a : re.regex) (p x : re.pos) :
  head (re.ends a p) = Some x ->
  head (re.ends (re.Group (Some n) a) p)
  = Some {| re.offset := re.offset x; re.rest := re.rest x;
            re.groups := <[n := string_of_list_ascii
                                  (take (re.offset x - re.offset p) (re.rest p))]>
                           (re.groups x) |}.
Proof.
  simpl. destruct (re.ends a p) as [|x' l]; [discriminate|].
  intros Hx. now inversion Hx.
Qed.

(** A repetition of a one-character step first ends after the longest run
    of characters that pass the test. *)
Lemma first_star_ends (a : re.regex) (ok : ascii -> bool) :
  step_ok a = Some ok ->
  forall n p, (length (re.rest p) <= n)%nat ->
    head (star_ends (re.ends a) n p) = Some (advance p (span_len ok (re.rest p))).
Proof.
  intros Hok. induction n as [|n IH]; intros [o s g] Hn; simpl in Hn.
  - destruct s; [|simpl in Hn; lia]. unfold advance. simpl.
    now rewrite Nat.add_0_r.
  - cbn [star_ends]. rewrite (ends_step a ok _ Hok). cbn [re.rest re.offset re.groups].
    destruct s as [|c cs].
    + unfold advance. simpl. now rewrite Nat.add_0_r.
    + cbn [span_len]. destruct (ok c); cbn [flat_map].
      * cbn [re.offset]. rewrite (proj2 (Nat.ltb_lt o (S o))) by lia.
        rewrite app_nil_r.
        specialize (IH {| re.offset := S o; re.rest := cs; re.groups := g |}).
        cbn [re.rest] in IH. simpl in Hn. specialize (IH ltac:(lia)).
        destruct (star_ends _ n _) as [|x l]; [discriminate|].
        simpl. inversion IH. unfold advance. simpl. f_equal. f_equal. lia.
      * unfold advance. simpl. now rewrite Nat.add_0_r.
Qed.

Lemma first_Star (a : re.regex) (ok : ascii -> bool) (p : re.pos) :
  step_ok a = Some ok ->
  head (re.ends (re.Star a) p) = Some (advance p (span_len ok (re.rest p))).
Proof. intros Hok. rewrite ends_Star. now apply first_star_ends. Qed.

Lemma first_Plus (a : re.regex) (ok : ascii -> bool) (p : re.pos) :
  step_ok a = Some ok -> (0 < span_len ok (re.rest p))%nat ->
  head (re.ends (re.Plus a) p) = Some (advance p (span_len ok (re.rest p))).
Proof.
  intros Hok Hpos. rewrite ends_Plus, (ends_step a ok _ Hok).
  destruct p as [o s g]. cbn [re.rest re.offset re.groups] in *.
  destruct s as [|c cs]; [simpl in Hpos; lia|]. cbn [span_len] in *.
  destruct (ok c); [|lia]. cbn [flat_map]. rewrite app_nil_r.
  rewrite (first_star_ends a ok Hok) by (simpl; lia).
  unfold advance. simpl. f_equal. f_equal. lia.
Qed.

Lemma first_Lit (c : ascii) (o : nat) (cs : list ascii) (g : gmap string string) :
  head (re.ends (re.Lit c) {| re.offset := o; re.rest := c :: cs; re.groups := g |})
  = Some {| re.offset := S o; re.rest := cs; re.groups := g |}.
Proof. simpl. now rewrite Ascii.eqb_refl. Qed.

Lemma first_Eos_Eps (o : nat) (g : gmap string string) :
  head (re.ends (re.Cat re.Eos re.Eps)
          {| re.offset := o; re.rest := []; re.groups := g |})
  = Some {| re.offset := o; re.rest := []; re.groups := g |}.
Proof. reflexivity. Qed.


(** ** The routes of [part/urls.py] *)

Lemma span_len_ext (ok ok' : ascii -> bool) (s : list ascii) :
  (forall c, ok c = ok' c) -> span_len ok s = span_len ok' s.
Proof.
  intros H. induction s as [|c s IH]; [reflexivity|].
  simpl. rewrite H, IH. reflexivity.
Qed.

Lemma span_len_app (ok : ascii -> bool) (pre post : list ascii) :
  forallb ok pre = true ->
  span_len ok (pre ++ post) = (length pre + span_len ok post)%nat.
Proof.
  induction pre as [|c pre IH]; [reflexivity|]. simpl.
  intros H. apply andb_prop in H as [-> H]. now rewrite IH.
Qed.

Lemma span_len_all (ok : ascii -> bool) (s : list ascii) :
  forallb ok s = true -> span_len ok s = length s.
Proof.
  intros H. rewrite <- (app_nil_r s) at 1. rewrite span_len_app by assumption.
  simpl. lia.
Qed.

Lemma numeric_digits (s : string) :
  numeric s = true ->
  forallb is_digit (list_ascii_of_string s) = true
  /\ (0 < length (list_ascii_of_string s))%nat.
Proof.
  unfold numeric. destruct (list_ascii_of_string s) as [|c l]; [discriminate|].
  intros H. split; [exact H|simpl; lia].
Qed.

(** The digits and the slash: the first match of [(?P<pk>[0-9]+)/$] on a
    numeric string followed by a slash consumes all of it and captures the
    number. *)
Lemma first_pk_slash (pk : string) (o : nat) (g : gmap string string) :
  numeric pk = true ->
  head (re.ends pk_slash
          {| re.offset := o; re.rest := list_ascii_of_string pk ++ ["/"%char];
             re.groups := g |})
  = Some {| re.offset := o + length (list_ascii_of_string pk) + 1; re.rest := [];
            re.groups := <["pk" := pk]> g |}.
Proof.
  intros Hnum. apply numeric_digits in Hnum as [Hdig Hlen].
  set (l := list_ascii_of_string pk) in *.
  set (p := {| re.offset := o; re.rest := l ++ ["/"%char]; re.groups := g |}).
  assert (Hspan : span_len (fun c => xorb false (existsb (re.in_item c) [re.Range "0" "9"]))
                    (re.rest p) = length l).
  { rewrite (span_len_ext _ is_digit) by (intros c; unfold is_digit; simpl; apply orb_false_r).
    simpl. rewrite span_len_app by assumption. simpl. lia. }
  assert (Hplus : head (re.ends (re.Cat (re.Plus (re.Set_ false [re.Range "0" "9"])) re.Eps) p)
                  = Some (advance p (length l))).
  { eapply first_Cat; [|reflexivity].
    rewrite <- Hspan. apply first_Plus; [reflexivity|]. rewrite Hspan. exact Hlen. }
  unfold pk_slash. eapply first_Cat.
  - apply first_Group. exact Hplus.
  - unfold advance, p. cbn [re.offset re.rest re.groups].
    rewrite drop_app_length.
    replace (o + length l - o)%nat with (length l) by lia.
    rewrite take_app_length. subst l. rewrite string_of_list_ascii_of_string.
    eapply first_Cat; [apply first_Lit|].
    replace (o + length (list_ascii_of_string pk) + 1)%nat
      with (S (o + length (list_ascii_of_string pk))) by lia.
    apply first_Eos_Eps.
Qed.

Lemma compile_pk_slash : re.compile "^(?P<pk>[0-9]+)/$" = Some (re.Cat re.Bos pk_slash).
Proof. vm_compute. reflexivity. Qed.

Lemma first_Bos (r : re.regex) (s : list ascii) (y : re.pos) :
  head (re.ends r {| re.offset := 0; re.rest := s; re.groups := ∅ |}) = Some y ->
  head (re.ends (re.Cat re.Bos r) {| re.offset := 0; re.rest := s; re.groups := ∅ |})
  = Some y.
Proof. intros H. eapply first_Cat; [reflexivity|exact H]. Qed.

(** A route that includes a table, when its pattern begins with [^]. *)
Lemma resolve_route_include (pattern : string) (r : re.regex) (ps : list route)
      (path : list ascii) :
  re.compile pattern = Some (re.Cat re.Bos r) ->
  resolve_route (url pattern (include ps)) path
  = match head (re.ends (re.Cat re.Bos r)
                  {| re.offset := 0; re.rest := path; re.groups := ∅ |}) with
    | Some m =>
        match resolve ps (re.rest m) with
        | ResolverMatch v kwargs => ResolverMatch v (kwargs ∪ re.groups m)
        | other => other
        end
    | None => Resolver404
    end.
Proof.
  intros Hc. cbn [resolve_route]. rewrite Hc, search_anchored.
  destruct (head _) as [m|]; [|reflexivity].
  induction ps as [|p ps IH]; [reflexivity|].
  cbn [resolve]. destruct (resolve_route p (re.rest m)); [reflexivity|exact IH|reflexivity].
Qed.

(** X1.  A number and a slash select the part detail handler, with the number
    as [pk]. *)
Theorem part_detail_route (pk : string) :
  numeric pk = true ->
  part_urls.dispatch (pk +:+ "/") = ResolverMatch PartDetail {["pk" := pk]}.
Proof.
  intros Hnum. unfold part_urls.dispatch, part_urls.urlpatterns.
  rewrite list_ascii_of_string_app.
  change (list_ascii_of_string "/") with ["/"%char].
  rewrite resolve_cons, (resolve_route_anchored _ _ _ _ compile_pk_slash).
  rewrite (first_Bos _ _ _ (first_pk_slash pk 0 ∅ Hnum)). reflexivity.
Qed.

Lemma part_detail_route_witness :
  part_urls.dispatch ("42" +:+ "/") = ResolverMatch PartDetail {["pk" := "42"]}.
Proof. apply (part_detail_route "42"). reflexivity. Defined.


Lemma union_computed_empty (kw : gmap string string) : kw ∪ GMap GEmpty = kw.
Proof. exact (map_union_empty kw). Qed.

(** What follows [parameters/] goes to the table of the part parameters. *)
Lemma resolve_under_parameters (tail : string) :
  part_urls.dispatch ("parameters/" +:+ tail)
  = resolve_path part_urls.partparampatterns tail.
Proof.
  unfold part_urls.dispatch, resolve_path, part_urls.urlpatterns.
  rewrite list_ascii_of_string_app.
  generalize (list_ascii_of_string tail) as l. intros l.
  change (list_ascii_of_string "parameters/")
    with ["p"; "a"; "r"; "a"; "m"; "e"; "t"; "e"; "r"; "s"; "/"]%char.
  cbn [app].
  rewrite resolve_cons.
  erewrite resolve_route_anchored by (vm_compute; reflexivity). first_match.
  rewrite resolve_cons.
  erewrite resolve_route_anchored by (vm_compute; reflexivity). first_match.
  rewrite resolve_cons.
  erewrite resolve_route_include by (vm_compute; reflexivity). first_match.
  cbn [re.rest re.groups].
  destruct (resolve part_urls.partparampatterns l) as [v kw| |] eqn:HR;
    [now rewrite union_computed_empty| |reflexivity].
  rewrite resolve_cons.
  erewrite resolve_route_include by (vm_compute; reflexivity). first_match.
  rewrite resolve_cons.
  erewrite resolve_route_anchored by (vm_compute; reflexivity).
  destruct l as [|c1 [|c2 l]].
  - vm_compute in HR. discriminate.
  - destruct c1 as [[] [] [] [] [] [] [] []];
      first [ first_match; reflexivity | vm_compute in HR; discriminate ].
  - first_match. reflexivity.
Qed.

(** What follows [templates/] goes to the table of the part templates. *)
Lemma resolve_under_templates (tail : string) :
  part_urls.dispatch ("templates/" +:+ tail)
  = resolve_path part_urls.parttemplatepatterns tail.
Proof.
  unfold part_urls.dispatch, resolve_path, part_urls.urlpatterns.
  rewrite list_ascii_of_string_app.
  generalize (list_ascii_of_string tail) as l. intros l.
  change (list_ascii_of_string "templates/")
    with ["t"; "e"; "m"; "p"; "l"; "a"; "t"; "e"; "s"; "/"]%char.
  cbn [app].
  rewrite resolve_cons.
  erewrite resolve_route_anchored by (vm_compute; reflexivity). first_match.
  rewrite resolve_cons.
  erewrite resolve_route_anchored by (vm_compute; reflexivity). first_match.
  rewrite resolve_cons.
  erewrite resolve_route_include by (vm_compute; reflexivity). first_match.
  rewrite resolve_cons.
  erewrite resolve_route_include by (vm_compute; reflexivity). first_match.
  cbn [re.rest re.groups].
  destruct (resolve part_urls.parttemplatepatterns l) as [v kw| |] eqn:HR;
    [now rewrite union_computed_empty| |reflexivity].
  rewrite resolve_cons.
  erewrite resolve_route_anchored by (vm_compute; reflexivity).
  destruct l as [|c1 [|c2 l]].
  - vm_compute in HR. discriminate.
  - destruct c1 as [[] [] [] [] [] [] [] []];
      first [ first_match; reflexivity | vm_compute in HR; discriminate ].
  - first_match. reflexivity.
Qed.


(** X3.  Everything under [parameters/] is resolved by the table of the part
    parameters, and by nothing else: when that table has no route for the
    rest of the path, no later route of [urlpatterns] takes the path. *)
Theorem parameters_namespace (tail : string) :
  part_urls.dispatch ("parameters/" +:+ tail)
  = resolve_path part_urls.partparampatterns tail.
Proof. apply resolve_under_parameters. Qed.

(** X4.  Everything under [templates/] is resolved by the table of the part
    templates, and by nothing else: when that table has no route for the
    rest of the path, no later route of [urlpatterns] takes the path. *)
Theorem templates_namespace (tail : string) :
  part_urls.dispatch ("templates/" +:+ tail)
  = resolve_path part_urls.parttemplatepatterns tail.
Proof. apply resolve_under_templates. Qed.

Lemma resolve_path_cons (p : route) (ps : list route) (path : string) :
  resolve_path (p :: ps) path
  = match resolve_route p (list_ascii_of_string path) with
    | Resolver404 => resolve_path ps path
    | found => found
    end.
Proof. reflexivity. Qed.

(** A number and a slash at the head of a table whose first route is the
    detail pattern. *)
Lemma detail_first (v : view) (ps : list route) (pk : string) :
  numeric pk = true ->
  resolve_path (url "^(?P<pk>[0-9]+)/$" (as_view v) :: ps) (pk +:+ "/")
  = ResolverMatch v {["pk" := pk]}.
Proof.
  intros Hnum. rewrite resolve_path_cons, list_ascii_of_string_app.
  change (list_ascii_of_string "/") with ["/"%char].
  rewrite (resolve_route_anchored _ _ _ _ compile_pk_slash).
  rewrite (first_Bos _ _ _ (first_pk_slash pk 0 ∅ Hnum)). reflexivity.
Qed.

(** X5.  [parameters/<number>/] selects the detail handler of the part
    parameters, with the number as [pk]. *)
Theorem parameter_detail_route (pk : string) :
  numeric pk = true ->
  part_urls.dispatch ("parameters/" +:+ pk +:+ "/")
  = ResolverMatch PartParamDetail {["pk" := pk]}.
Proof.
  intros Hnum. rewrite resolve_under_parameters. now apply detail_first.
Qed.

Lemma parameter_detail_route_witness :
  part_urls.dispatch ("parameters/" +:+ "7" +:+ "/")
  = ResolverMatch PartParamDetail {["pk" := "7"]}.
Proof. apply (parameter_detail_route "7"). reflexivity. Defined.

(** X6.  [templates/<number>/] selects the detail handler of the part
    templates, with the number as [pk]. *)
Theorem template_detail_route (pk : string) :
  numeric pk = true ->
  part_urls.dispatch ("templates/" +:+ pk +:+ "/")
  = ResolverMatch PartTemplateDetail {["pk" := pk]}.
Proof.
  intros Hnum. rewrite resolve_under_templates. now apply detail_first.
Qed.

Lemma template_detail_route_witness :
  part_urls.dispatch ("templates/" +:+ "305" +:+ "/")
  = ResolverMatch PartTemplateDetail {["pk" := "305"]}.
Proof. apply (template_detail_route "305"). reflexivity. Defined.

(** *** Literal prefixes *)

(** A pattern that spells out [w] and goes on as [k]. *)
Lemma first_literals (w : list ascii) (k : re.regex) (o : nat) (cs : list ascii)
      (g : gmap string string) (y : re.pos) :
  head (re.ends k {| re.offset := o + length w; re.rest := cs; re.groups := g |})
  = Some y ->
  head (re.ends (foldr (fun c r => re.Cat (re.Lit c) r) k w)
          {| re.offset := o; re.rest := w ++ cs; re.groups := g |})
  = Some y.
Proof.
  revert o. induction w as [|c w IH]; intros o Hk.
  - simpl in *. now rewrite Nat.add_0_r in Hk.
  - cbn [foldr app]. eapply first_Cat; [apply first_Lit|]. apply IH.
    cbn [length] in Hk.
    now replace (S o + length w)%nat with (o + S (length w))%nat by lia.
Qed.

(** X9.  The table of the categories, which no route includes, resolves
    [category/<number>/] to the detail handler of the categories, with the
    number as [pk]. *)
Theorem categorypatterns_detail_route (pk : string) :
  numeric pk = true ->
  resolve_path part_urls.categorypatterns ("category/" +:+ pk +:+ "/")
  = ResolverMatch PartCategoryDetail {["pk" := pk]}.
Proof.
  intros Hnum. unfold part_urls.categorypatterns.
  rewrite resolve_path_cons, !list_ascii_of_string_app.
  change (list_ascii_of_string "/") with ["/"%char].
  assert (Hc : re.compile "^category/(?P<pk>[0-9]+)/$"
               = Some (re.Cat re.Bos
                         (foldr (fun c r => re.Cat (re.Lit c) r) pk_slash
                                (list_ascii_of_string "category/"))))
    by (vm_compute; reflexivity).
  rewrite (resolve_route_anchored _ _ _ _ Hc).
  erewrite first_Bos;
    [|apply first_literals; apply (first_pk_slash pk _ ∅ Hnum)].
  reflexivity.
Qed.

Lemma categorypatterns_detail_route_witness :
  resolve_path part_urls.categorypatterns ("category/" +:+ "5" +:+ "/")
  = ResolverMatch PartCategoryDetail {["pk" := "5"]}.
Proof. apply (categorypatterns_detail_route "5"). reflexivity. Defined.

(** *** Paths without a slash *)

Lemma slash_free_not_in (s : string) :
  slash_free s = true -> "/"%char ∉ list_ascii_of_string s.
Proof.
  unfold slash_free. intros H Hin. apply list_elem_of_In in Hin.
  rewrite forallb_forall in H. specialize (H _ Hin).
  now rewrite Ascii.eqb_refl in H.
Qed.

Lemma resolve_route_no_match (pattern : string) (r : re.regex) (t : target)
      (path : list ascii) :
  re.compile pattern = Some r -> re.search r path = None ->
  resolve_route (url pattern t) path = Resolver404.
Proof. intros Hc Hs. cbn [resolve_route]. now rewrite Hc, Hs. Qed.

Lemma forallb_drop {A : Type} (f : A -> bool) (n : nat) (l : list A) :
  forallb f l = true -> forallb f (drop n l) = true.
Proof.
  revert n. induction l as [|x l IH]; intros [|n] H; simpl in *; auto.
  apply andb_prop in H as [_ H]. auto.
Qed.

(** X8.  A path without a slash (a bare query string, a word, nothing at all)
    selects the part list handler, with no argument. *)
Theorem part_list_route (path : string) :
  slash_free path = true ->
  part_urls.dispatch path = ResolverMatch PartList ∅.
Proof.
  intros Hfree. pose proof (slash_free_not_in path Hfree) as Hnot.
  unfold part_urls.dispatch, part_urls.urlpatterns. unfold slash_free in Hfree.
  set (l := list_ascii_of_string path) in *.
  assert (Hskip : forall pattern r t,
             re.compile pattern = Some r -> requires "/" r = true ->
             resolve_route (url pattern t) l = Resolver404).
  { intros pattern r t Hc Hr. apply (resolve_route_no_match _ r _ _ Hc).
    now apply (search_requires "/"). }
  rewrite resolve_cons, (Hskip _ _ _ compile_pk_slash) by reflexivity.
  rewrite resolve_cons. erewrite Hskip by (vm_compute; reflexivity).
  rewrite resolve_cons. erewrite Hskip by (vm_compute; reflexivity).
  rewrite resolve_cons. erewrite Hskip by (vm_compute; reflexivity).
  rewrite resolve_cons.
  erewrite resolve_route_anchored by (vm_compute; reflexivity).
  erewrite first_Bos; cycle 1.
  { eapply first_Cat; [apply first_Star; reflexivity|].
    eapply first_Cat; [apply first_Star; reflexivity|].
    unfold advance. cbn [re.offset re.rest re.groups].
    set (k := span_len (Ascii.eqb "?") l).
    rewrite (span_len_ext _ (fun c => negb (Ascii.eqb c "/")))
      by (intros c; simpl; now rewrite orb_false_r).
    rewrite span_len_all by now apply forallb_drop.
    rewrite drop_all. reflexivity. }
  reflexivity.
Qed.

Lemma part_list_route_witness :
  part_urls.dispatch "?category=3" = ResolverMatch PartList ∅.
Proof. apply (part_list_route "?category=3"). reflexivity. Defined.

(** X7.  [parameters/?<query>/], for a query without a slash, selects the list
    handler of the part parameters. *)
Theorem parameter_query_route (query : string) :
  slash_free query = true ->
  part_urls.dispatch ("parameters/" +:+ "?" +:+ query +:+ "/")
  = ResolverMatch PartParamList ∅.
Proof.
  intros Hfree. rewrite resolve_under_parameters.
  unfold part_urls.partparampatterns. unfold slash_free in Hfree.
  rewrite resolve_path_cons, !list_ascii_of_string_app.
  change (list_ascii_of_string "?") with ["?"%char].
  change (list_ascii_of_string "/") with ["/"%char].
  set (l := list_ascii_of_string query) in *. cbn [app].
  rewrite (resolve_route_anchored _ _ _ _ compile_pk_slash). first_match.
  rewrite resolve_path_cons.
  repeat (rewrite list_ascii_of_string_app;
          try change (list_ascii_of_string "?") with ["?"%char];
          try change (list_ascii_of_string "/") with ["/"%char]).
  fold l. cbn [app].
  erewrite resolve_route_anchored by (vm_compute; reflexivity).
  erewrite first_Bos; cycle 1.
  { eapply first_Cat; [apply first_Lit|].
    eapply first_Cat; [apply first_Star; reflexivity|].
    unfold advance. cbn [re.offset re.rest re.groups].
    rewrite (span_len_ext _ (fun c => negb (Ascii.eqb c "/")))
      by (intros c; simpl; now rewrite orb_false_r).
    rewrite span_len_app by assumption. cbn [span_len].
    change (negb (Ascii.eqb "/" "/")) with false. cbv iota.
    rewrite Nat.add_0_r, drop_app_length.
    eapply first_Cat; [apply first_Lit|]. apply first_Eos_Eps. }
  reflexivity.
Qed.

Lemma parameter_query_route_witness :
  part_urls.dispatch ("parameters/" +:+ "?" +:+ "part=3" +:+ "/")
  = ResolverMatch PartParamList ∅.
Proof. apply (parameter_query_route "part=3"). reflexivity. Defined.


(** *** What the detail pattern accepts *)

(** Every end of a repetition of a one-character step lies within the
    longest run of characters that pass the test. *)
Lemma star_ends_within (a : re.regex) (ok : ascii -> bool) :
  step_ok a = Some ok ->
  forall n p p', p' ∈ star_ends (re.ends a) n p ->
    exists k, (k <= span_len ok (re.rest p))%nat /\ p' = advance p k.
Proof.
  intros Hok. induction n as [|n IH]; intros [o s g] p' Hp'.
  - apply list_elem_of_singleton in Hp' as ->. exists 0%nat. split; [lia|].
    unfold advance. simpl. now rewrite Nat.add_0_r.
  - cbn [star_ends] in Hp'. apply elem_of_app in Hp' as [Hp'|Hp'].
    + rewrite (ends_step a ok _ Hok) in Hp'. cbn [re.rest re.offset re.groups] in Hp'.
      destruct s as [|c cs]; [inversion Hp'|]. cbn [span_len re.rest].
      destruct (ok c); [|inversion Hp']. cbn [flat_map] in Hp'.
      rewrite app_nil_r in Hp'.
      destruct (_ <? _)%nat; [|inversion Hp'].
      apply IH in Hp' as (k & Hk & ->). exists (S k). split; [simpl in *; lia|].
      unfold advance. simpl. f_equal. lia.
    + apply list_elem_of_singleton in Hp' as ->. exists 0%nat. split; [lia|].
      unfold advance. simpl. now rewrite Nat.add_0_r.
Qed.

Lemma ends_Plus_within (a : re.regex) (ok : ascii -> bool) (p p' : re.pos) :
  step_ok a = Some ok -> p' ∈ re.ends (re.Plus a) p ->
  exists k, (1 <= k <= span_len ok (re.rest p))%nat /\ p' = advance p k.
Proof.
  intros Hok Hp'. rewrite ends_Plus, (ends_step a ok _ Hok) in Hp'.
  destruct p as [o s g]. cbn [re.rest re.offset re.groups] in *.
  destruct s as [|c cs]; [inversion Hp'|]. cbn [span_len].
  destruct (ok c); [|inversion Hp']. cbn [flat_map] in Hp'. rewrite app_nil_r in Hp'.
  apply (star_ends_within a ok Hok) in Hp' as (k & Hk & ->).
  exists (S k). split; [simpl in *; lia|]. unfold advance. simpl. f_equal. lia.
Qed.

Lemma span_len_take (ok : ascii -> bool) (s : list ascii) (k : nat) :
  (k <= span_len ok s)%nat -> forallb ok (take k s) = true.
Proof.
  revert k. induction s as [|c s IH]; intros k Hk.
  - now rewrite take_nil.
  - destruct k as [|k]; [reflexivity|]. simpl in *.
    destruct (ok c); [|lia]. simpl. apply IH. lia.
Qed.

(** A match of [(?P<pk>[0-9]+)/$] consumes a non-empty run of digits and a
    slash, captures the digits as [pk], and ends at the end of the subject
    or before a final newline. *)
Lemma pk_slash_match (p m : re.pos) :
  m ∈ re.ends pk_slash p ->
  exists digits tl,
    re.rest p = digits ++ "/"%char :: tl
    /\ digits <> [] /\ forallb is_digit digits = true
    /\ (tl = [] \/ tl = ["010"%char])
    /\ re.groups m = <["pk" := string_of_list_ascii digits]> (re.groups p).
Proof.
  unfold pk_slash. rewrite ends_Cat. intros Hm.
  apply list_elem_of_In, in_flat_map in Hm as (q & Hq & Hm).
  apply list_elem_of_In in Hq, Hm.
  cbn [re.ends] in Hq. apply list_elem_of_fmap in Hq as (q0 & -> & Hq0).
  fold (re.ends (re.Cat (re.Plus (re.Set_ false [re.Range "0" "9"])) re.Eps) p) in Hq0.
  rewrite ends_Cat in Hq0.
  apply list_elem_of_In, in_flat_map in Hq0 as (q1 & Hq1 & Hq0).
  apply list_elem_of_In in Hq1. cbn [re.ends] in Hq0.
  destruct Hq0 as [<-|[]].
  apply (ends_Plus_within (re.Set_ false [re.Range "0" "9"]) _ p q1 eq_refl)
    in Hq1 as (k & [Hk1 Hk] & ->).
  rewrite (span_len_ext _ is_digit) in Hk
    by (intros c; unfold is_digit; simpl; apply orb_false_r).
  unfold advance in Hm. cbn [re.offset re.rest re.groups] in Hm.
  rewrite ends_Cat in Hm. apply list_elem_of_In, in_flat_map in Hm as (q2 & Hq2 & Hm).
  cbn [re.ends re.rest] in Hq2.
  destruct (drop k (re.rest p)) as [|c tl] eqn:Hdrop; [inversion Hq2|].
  destruct (Ascii.eqb_spec "/" c) as [<-|]; [|inversion Hq2].
  destruct Hq2 as [<-|[]].
  exists (take k (re.rest p)), tl.
  assert (Hlen : length (take k (re.rest p)) = k).
  { apply length_take_le. apply (f_equal length) in Hdrop.
    rewrite length_drop in Hdrop. simpl in Hdrop. lia. }
  split; [rewrite <- Hdrop; symmetry; apply take_drop|]. split; [|split; [|split]].
  - intros Hnil. rewrite Hnil in Hlen. simpl in Hlen. lia.
  - now apply span_len_take.
  - rewrite ends_Cat in Hm. apply in_flat_map in Hm as (q3 & Hq3 & _).
    cbn [re.ends re.rest] in Hq3.
    destruct tl as [|c [|c' tl]]; [now left| |inversion Hq3].
    destruct (Ascii.eqb_spec c "010") as [->|]; [now right|inversion Hq3].
  - rewrite ends_Cat in Hm. apply in_flat_map in Hm as (q3 & Hq3 & Hm).
    assert (q3 = {| re.offset := S (re.offset p + k); re.rest := tl;
                    re.groups := <["pk" := string_of_list_ascii
                                     (take (re.offset p + k - re.offset p) (re.rest p))]>
                                   (re.groups p) |}) as ->.
    { cbn [re.ends re.rest] in Hq3.
      destruct tl as [|c [|c' tl]]; [| |inversion Hq3].
      - now destruct Hq3 as [<-|[]].
      - destruct (Ascii.eqb c "010"); [|inversion Hq3]. now destruct Hq3 as [<-|[]]. }
    destruct Hm as [<-|[]]. cbn [re.groups].
    now replace (re.offset p + k - re.offset p)%nat with k by lia.
Qed.

Lemma string_of_list_ascii_app (a b : list ascii) :
  string_of_list_ascii (a ++ b) = string_of_list_ascii a +:+ string_of_list_ascii b.
Proof.
  induction a as [|c a IH]; [reflexivity|].
  simpl. unfold String.append; fold String.append. now rewrite IH.
Qed.

(** X2.  The part detail handler is selected only for a number followed by a
    slash (and possibly a final newline, which [$] lets through), and the
    [pk] it receives is that number. *)
Theorem part_detail_only_numeric (path : string) (kwargs : gmap string string) :
  part_urls.dispatch path = ResolverMatch PartDetail kwargs ->
  exists pk,
    numeric pk = true
    /\ kwargs = {["pk" := pk]}
    /\ (path = pk +:+ "/" \/ path = pk +:+ "/" +:+ String "010" "").
Proof.
  unfold part_urls.dispatch, part_urls.urlpatterns.
  rewrite resolve_cons, (resolve_route_anchored _ _ _ _ compile_pk_slash).
  destruct (head _) as [m|] eqn:Hm.
  - intros H. inversion H; subst. clear H.
    apply head_Some_elem_of in Hm. rewrite ends_Cat in Hm.
    cbn [re.ends re.offset Nat.eqb flat_map] in Hm. rewrite app_nil_r in Hm.
    apply pk_slash_match in Hm as (digits & tl & Hrest & Hne & Hdig & Htl & Hg).
    cbn [re.rest re.groups] in Hrest, Hg.
    exists (string_of_list_ascii digits). split; [|split].
    + unfold numeric. rewrite list_ascii_of_string_of_list_ascii.
      destruct digits; [congruence|exact Hdig].
    + exact Hg.
    + rewrite <- (string_of_list_ascii_of_string path), Hrest.
      rewrite string_of_list_ascii_app.
      destruct Htl as [->| ->]; [left|right]; reflexivity.
  - intros H. apply resolve_views in H. exfalso. revert H.
    apply (bool_decide_unpack _). vm_compute. exact I.
Qed.

Lemma part_detail_only_numeric_witness :
  exists pk,
    numeric pk = true
    /\ ({["pk" := "42"]} : gmap string string) = {["pk" := pk]}
    /\ ("42/" = pk +:+ "/" \/ "42/" = pk +:+ "/" +:+ String "010" "").
Proof.
  apply (part_detail_only_numeric "42/" {["pk" := "42"]}).
  vm_compute. reflexivity.
Defined.


(** ** More on [PluginConfig] *)

(** X11.  [meta] has ten keys, the same for every instance, whether the
    plugin is in the registry or not: [slug], [human_name], [description],
    [author], [pub_date], [version], [website], [license], [package_path]
    and [settings_url]. *)
Theorem meta_keys_fixed (reg : Registry) (pk : option Z) (key name : option string)
        (active : pyval) :
  let meta := PluginConfig.meta (PluginConfig.__init__ reg pk key name active) in
  dom meta = {[ "slug"; "human_name"; "description"; "author"; "pub_date";
                "version"; "website"; "license"; "package_path"; "settings_url" ]}
  /\ size meta = 10%nat.
Proof.
  intros meta.
  assert (Hdom : dom meta
                 = {[ "slug"; "human_name"; "description"; "author"; "pub_date";
                      "version"; "website"; "license"; "package_path";
                      "settings_url" ]}).
  { apply set_eq. intros n. rewrite elem_of_dom. subst meta.
    unfold PluginConfig.__init__. cbn [PluginConfig.meta]. split.
    - intros [v Hv]. apply meta_lookup in Hv as [Hn _].
      unfold PluginConfig.meta_keys in Hn.
      rewrite !elem_of_cons, elem_of_nil in Hn.
      rewrite !elem_of_union, !elem_of_singleton. tauto.
    - intros Hn. rewrite meta_lookup_key; [eauto|].
      unfold PluginConfig.meta_keys.
      rewrite !elem_of_union, !elem_of_singleton in Hn.
      rewrite !elem_of_cons. tauto. }
  split; [exact Hdom|].
  rewrite <- size_dom, Hdom. apply (bool_decide_unpack _). vm_compute. exact I.
Qed.

(** X12.  [mixins] raises exactly the errors of the read that are instances of
    neither [AttributeError] nor [ValueError]; an instance of a subclass of
    these, such as [UnicodeError], is swallowed like the class itself. *)
Theorem mixins_raises_iff (self : PluginConfig.t) (e : exn) :
  PluginConfig.mixins self = Raise e
  <-> (PluginConfig.read_mixinreg self = AttrRaises e
       /\ (AttributeError ∉ exn_classes e) /\ (ValueError ∉ exn_classes e)).
Proof.
  assert (Hspec : forall e', caught_by [AttributeError; ValueError] e'
                  = negb (bool_decide ((AttributeError ∉ exn_classes e')
                                       /\ (ValueError ∉ exn_classes e'))))
    by (intros []; vm_compute; reflexivity).
  unfold PluginConfig.mixins.
  destruct (PluginConfig.read_mixinreg self) as [reg|e'].
  - split; [discriminate|]. intros [H _]. discriminate.
  - rewrite Hspec. destruct (bool_decide _) eqn:Hd; cbn [negb].
    + apply bool_decide_eq_true_1 in Hd. split.
      * intros H. inversion H; subst. auto.
      * intros [H _]. now inversion H.
    + apply bool_decide_eq_false_1 in Hd. split; [discriminate|].
      intros [H Hc]. inversion H; subst. contradiction.
Qed.

Lemma mixins_raises_iff_witness :
  PluginConfig.mixins
    (PluginConfig.__init__
       {| plugins := {["broken" := demo_broken_plugin]}; mixins_settings := ∅ |}
       None (Some "broken") None (PyBool true))
  = Return ∅.
Proof.
  set (self := PluginConfig.__init__ _ _ _ _ _).
  destruct (PluginConfig.mixins self) as [reg|e] eqn:E.
  - vm_compute in E. inversion E. reflexivity.
  - apply (proj1 (mixins_raises_iff self e)) in E as (Hread & _ & Hv).
    vm_compute in Hread. inversion Hread; subst. exfalso. apply Hv.
    right. left.
Defined.

Section more_save_properties.

Variable super_save :
  PluginConfig.t -> pyval -> pyval -> list pyval -> gmap string pyval ->
  World -> result (pyval * option Z) * World.
Variable reload_plugins : World -> result unit * World.

(** X13.  An instance saved as it was constructed never causes a reload: the
    flag is compared with itself. *)
Theorem save_fresh_instance_no_reload (reg : Registry) (pk : option Z)
        (key name : option string) (active fi fu : pyval) (args : list pyval)
        (kwargs : gmap string pyval) (s : State) :
  calls (PluginConfig.save super_save reload_plugins
           (PluginConfig.__init__ reg pk key name active) fi fu args kwargs s).2
  = calls s.
Proof.
  rewrite save_unfold. unfold PluginConfig.__init__.
  cbn [PluginConfig.active PluginConfig.__org_active].
  assert (H : (py_is_False active && py_is_True active
               || py_is_True active && py_is_False active) = false)
    by (destruct active as [|[]| | |]; reflexivity).
  rewrite H, andb_false_r.
  destruct (super_save _ _ _ _ _ _) as [[r|e] w]; reflexivity.
Qed.

(** X14.  The comparison is by identity with [True] and [False]: when the flag,
    now or at construction, is not a boolean (it is [None], an integer, a
    string), save does not reload, whatever the two values are. *)
Theorem save_non_boolean_no_reload (self : PluginConfig.t) (fi fu : pyval)
        (args : list pyval) (kwargs : gmap string pyval) (s : State) :
  (forall b, PluginConfig.active self <> PyBool b)
  \/ (forall b, PluginConfig.__org_active self <> PyBool b) ->
  calls (PluginConfig.save super_save reload_plugins self fi fu args kwargs s).2
  = calls s.
Proof.
  intros Hnb. rewrite save_unfold.
  assert (H : (py_is_False (PluginConfig.active self)
               && py_is_True (PluginConfig.__org_active self)
               || py_is_True (PluginConfig.active self)
                  && py_is_False (PluginConfig.__org_active self)) = false).
  { destruct Hnb as [Hnb|Hnb].
    - destruct (PluginConfig.active self) as [|b| | |]; try reflexivity.
      now destruct (Hnb b).
    - destruct (PluginConfig.__org_active self) as [|b| | |];
        rewrite ?andb_false_r; try reflexivity.
      now destruct (Hnb b). }
  rewrite H, andb_false_r.
  destruct (super_save _ _ _ _ _ _) as [[r|e] w]; reflexivity.
Qed.

(** X15.  [save] raises in two cases only: the underlying save raised, or the
    reload was due and raised.  In the first case there is no reload and
    the world is as the underlying save left it. *)
Theorem save_raises_iff (self : PluginConfig.t) (fi fu : pyval) (args : list pyval)
        (kwargs : gmap string pyval) (s : State) (e : exn) (s' : State) :
  PluginConfig.save super_save reload_plugins self fi fu args kwargs s = (Raise e, s')
  <-> (exists w, super_save self fi fu args (delete "no_reload" kwargs) (world s)
                 = (Raise e, w)
                 /\ s' = {| world := w; calls := calls s |})
      \/ (exists r w w',
             super_save self fi fu args (delete "no_reload" kwargs) (world s)
             = (Return r, w)
             /\ py_truthy (default (PyBool false) (kwargs !! "no_reload")) = false
             /\ (py_is_False (PluginConfig.active self)
                 && py_is_True (PluginConfig.__org_active self)
                 || py_is_True (PluginConfig.active self)
                    && py_is_False (PluginConfig.__org_active self)) = true
             /\ reload_plugins w = (Raise e, w')
             /\ s' = {| world := w'; calls := calls s ++ [reload_plugins_called] |}).
Proof.
  rewrite save_unfold.
  destruct (super_save _ _ _ _ _ _) as [[r|e0] w] eqn:Hsuper.
  - destruct (py_truthy _) eqn:Hflag; cbn [negb andb].
    + split; [discriminate|]. intros [(w0 & H & _)|(r0 & w0 & w' & _ & H & _)];
        discriminate.
    + destruct (_ || _) eqn:Hdue.
      * destruct (reload_plugins w) as [[[]|e1] w'] eqn:Hre.
        -- split; [discriminate|].
           intros [(w0 & H & _)|(r0 & w0 & w1 & H0 & _ & _ & H & _)]; [discriminate|].
           inversion H0; subst. congruence.
        -- split.
           ++ intros H. inversion H; subst. right. exists r, w, w'. auto.
           ++ intros [(w0 & H & _)|(r0 & w0 & w1 & H0 & _ & _ & H & ->)];
                [discriminate|].
              inversion H0; subst. rewrite Hre in H. now inversion H.
      * split; [discriminate|].
        intros [(w0 & H & _)|(r0 & w0 & w' & _ & _ & H & _)]; discriminate.
  - split.
    + intros H. inversion H; subst. left. eauto.
    + intros [(w0 & H & ->)|(r0 & w0 & w' & H & _)]; [|discriminate].
      now inversion H.
Qed.

(** The baseline is set at construction only: when [save] returns, the
    instance has the flag and the baseline that it had. *)
Lemma save_keeps_flags (self self' : PluginConfig.t) (fi fu ret : pyval)
      (args : list pyval) (kwargs : gmap string pyval) (s s' : State) :
  PluginConfig.save super_save reload_plugins self fi fu args kwargs s
  = (Return (ret, self'), s') ->
  PluginConfig.active self' = PluginConfig.active self
  /\ PluginConfig.__org_active self' = PluginConfig.__org_active self.
Proof.
  rewrite save_unfold.
  destruct (super_save _ _ _ _ _ _) as [[r|e0] w]; [|discriminate].
  destruct (_ && _).
  - destruct (reload_plugins w) as [[[]|e1] w']; [|discriminate].
    intros H. inversion H; subst. split; reflexivity.
  - intros H. inversion H; subst. split; reflexivity.
Qed.

(** X16.  An instance whose flag was changed reloads at every save, not only
    at the first, because the baseline is never refreshed: two saves in a
    row, each of which returns, make two calls. *)
Theorem save_twice_reloads_twice (self self1 self2 : PluginConfig.t)
        (fi fu ret1 ret2 : pyval) (s s1 s2 : State) (was now : bool) :
  PluginConfig.__org_active self = PyBool was ->
  PluginConfig.active self = PyBool now ->
  was <> now ->
  PluginConfig.save super_save reload_plugins self fi fu [] ∅ s
  = (Return (ret1, self1), s1) ->
  PluginConfig.save super_save reload_plugins self1 fi fu [] ∅ s1
  = (Return (ret2, self2), s2) ->
  calls s2 = calls s ++ [reload_plugins_called; reload_plugins_called].
Proof.
  intros Hwas Hnow Hne H1 H2.
  destruct (save_keeps_flags _ _ _ _ _ _ _ _ _ H1) as [Ha Ho].
  assert (Hdue : forall a o, a = PyBool now -> o = PyBool was ->
             (py_is_False a && py_is_True o || py_is_True a && py_is_False o) = true)
    by (intros a o -> ->; destruct was, now; simpl; congruence).
  assert (Hstep : forall x r y t t',
             PluginConfig.active x = PyBool now ->
             PluginConfig.__org_active x = PyBool was ->
             PluginConfig.save super_save reload_plugins x fi fu [] ∅ t
             = (Return (r, y), t') ->
             calls t' = calls t ++ [reload_plugins_called]).
  { intros x r y t t' Hx Hox. rewrite save_unfold.
    destruct (super_save _ _ _ _ _ _) as [[r0|e0] w]; [|discriminate].
    rewrite lookup_empty. cbn [default from_option id py_truthy negb andb].
    rewrite (Hdue _ _ Hx Hox).
    destruct (reload_plugins w) as [[[]|e1] w']; [|discriminate].
    intros H. now inversion H. }
  rewrite (Hstep _ _ _ _ _ (eq_trans Ha Hnow) (eq_trans Ho Hwas) H2).
  rewrite (Hstep _ _ _ _ _ Hnow Hwas H1). now rewrite <- app_assoc.
Qed.

End more_save_properties.

(** X17.  [no_reload] is taken out of the keyword arguments before the
    underlying save is called: how the underlying save would treat a
    [no_reload] argument does not matter. *)
Theorem save_consumes_no_reload
        (super_save super_save' :
           PluginConfig.t -> pyval -> pyval -> list pyval -> gmap string pyval ->
           World -> result (pyval * option Z) * World)
        (reload_plugins : World -> result unit * World)
        (self : PluginConfig.t) (fi fu : pyval) (args : list pyval)
        (kwargs : gmap string pyval) (s : State) :
  (forall x a b l (kw : gmap string pyval) w,
      kw !! "no_reload" = None -> super_save x a b l kw w = super_save' x a b l kw w) ->
  PluginConfig.save super_save reload_plugins self fi fu args kwargs s
  = PluginConfig.save super_save' reload_plugins self fi fu args kwargs s.
Proof.
  intros Hagree. rewrite !save_unfold.
  now rewrite (Hagree _ _ _ _ _ _ (lookup_delete_eq kwargs "no_reload")).
Qed.


Lemma save_non_boolean_no_reload_witness :
  calls (PluginConfig.save PluginConfig.Model_save reload_nothing
           (set_active
              (PluginConfig.__init__ demo_registry None (Some "sample") None (PyInt 0))
              (PyInt 1))
           (PyBool false) (PyBool false) [] ∅ demo_state).2
  = calls demo_state.
Proof.
  apply (save_non_boolean_no_reload PluginConfig.Model_save reload_nothing).
  left. intros b. discriminate.
Defined.

Lemma save_raises_iff_witness :
  PluginConfig.save PluginConfig.Model_save reload_nothing
    (set_active demo_config (PyBool true)) (PyBool false) (PyBool false) [] ∅
    demo_config_state
  = (Raise IntegrityError, demo_config_state).
Proof.
  apply (proj2 (save_raises_iff PluginConfig.Model_save reload_nothing
                  (set_active demo_config (PyBool true)) (PyBool false) (PyBool false)
                  [] ∅ demo_config_state IntegrityError demo_config_state)).
  left. exists (world demo_config_state). split; vm_compute; reflexivity.
Defined.

Lemma save_twice_reloads_twice_witness :
  let self := set_active demo_config (PyBool true) in
  let out1 := PluginConfig.save PluginConfig.Model_save reload_nothing self
                (PyBool false) (PyBool false) [] ∅ demo_state in
  let out2 := PluginConfig.save PluginConfig.Model_save reload_nothing
                (PluginConfig.set_pk self (Some 1%Z))
                (PyBool false) (PyBool false) [] ∅ out1.2 in
  calls out2.2 = calls demo_state ++ [reload_plugins_called; reload_plugins_called].
Proof.
  intros self out1 out2.
  apply (save_twice_reloads_twice PluginConfig.Model_save reload_nothing
           self (PluginConfig.set_pk self (Some 1%Z)) (PluginConfig.set_pk self (Some 1%Z))
           (PyBool false) (PyBool false) PyNone PyNone demo_state out1.2 out2.2
           false true).
  - reflexivity.
  - reflexivity.
  - discriminate.
  - vm_compute. reflexivity.
  - vm_compute. reflexivity.
Defined.

Lemma save_consumes_no_reload_witness :
  PluginConfig.save PluginConfig.Model_save reload_nothing demo_config
    (PyBool false) (PyBool false) [] {["no_reload" := PyBool true]} demo_state
  = PluginConfig.save
      (fun x a b l kw w => PluginConfig.Model_save x a b l (delete "no_reload" kw) w)
      reload_nothing demo_config
      (PyBool false) (PyBool false) [] {["no_reload" := PyBool true]} demo_state.
Proof.
  apply (save_consumes_no_reload PluginConfig.Model_save
           (fun x a b l kw w => PluginConfig.Model_save x a b l (delete "no_reload" kw) w)).
  intros x a b l kw w Hkw. now rewrite delete_id.
Defined.

(** ** More on [PluginSetting.get_setting_definition] *)

Section more_get_setting_definition.

Variable plugin_config : Plugin -> World -> result (option PluginConfig.t) * World.

(** X18.  Without a [settings] argument, the base method never sees the [plugin]
    argument: either the call raises before the base method is reached, or
    the base method is called once, with the other keyword arguments as
    they were given, [plugin] taken out and at most [settings] put in.
    Which of the two, and with what, does not depend on the base method. *)
Theorem get_setting_definition_forwarding (key : string)
        (kwargs : gmap string kwval) (s : State) :
  kwargs !! "settings" = None ->
  (exists e s',
      forall (R : Type) (super_get_setting_definition : string -> gmap string kwval -> M R),
        PluginSetting.get_setting_definition super_get_setting_definition
          plugin_config key kwargs s = (Raise e, s'))
  \/ (exists kwargs' s',
         (forall (R : Type)
                 (super_get_setting_definition : string -> gmap string kwval -> M R),
             PluginSetting.get_setting_definition super_get_setting_definition
               plugin_config key kwargs s
             = super_get_setting_definition key kwargs' s')
         /\ kwargs' !! "plugin" = None
         /\ (forall k, k <> "plugin" -> k <> "settings" -> kwargs' !! k = kwargs !! k)
         /\ calls s' = calls s).
Proof.
  intros Hset. unfold PluginSetting.get_setting_definition. rewrite Hset.
  set (plugin := default (KwVal PyNone) (kwargs !! "plugin")).
  assert (Hplain : forall (kw' : gmap string kwval),
             kw' = delete "plugin" kwargs
             \/ (exists d, kw' = <["settings" := d]> (delete "plugin" kwargs)) ->
             kw' !! "plugin" = None
             /\ (forall k, k <> "plugin" -> k <> "settings" -> kw' !! k = kwargs !! k)).
  { intros kw' [->|[d ->]]; split.
    - apply lookup_delete_eq.
    - intros k Hk _. now apply lookup_delete_ne.
    - rewrite lookup_insert_ne by discriminate. apply lookup_delete_eq.
    - intros k Hk Hk'. rewrite lookup_insert_ne by congruence.
      now apply lookup_delete_ne. }
  destruct (kw_truthy plugin) eqn:Htruthy.
  - destruct plugin as [v|d|c|p] eqn:Hplugin.
    + left. exists AttributeError, s. reflexivity.
    + left. exists AttributeError, s. reflexivity.
    + right. eexists _, s. split; [intros R sup; reflexivity|].
      split; [|split; [|reflexivity]]; eapply Hplain; right; eauto.
    + destruct (plugin_config p (world s)) as [[[c|]|e] w'] eqn:Hc.
      * right. eexists _, {| world := w'; calls := calls s |}.
        split; [intros R sup; rewrite !M_bind_run; unfold lift; rewrite Hc; reflexivity|].
        split; [|split; [|reflexivity]]; eapply Hplain; right; eauto.
      * left. exists AttributeError, {| world := w'; calls := calls s |}.
        intros R sup. rewrite !M_bind_run. unfold lift. rewrite Hc. reflexivity.
      * left. exists e, {| world := w'; calls := calls s |}.
        intros R sup. rewrite !M_bind_run. unfold lift. rewrite Hc. reflexivity.
  - right. exists (delete "plugin" kwargs), s.
    split; [intros R sup; reflexivity|].
    split; [|split; [|reflexivity]]; eapply Hplain; left; reflexivity.
Qed.

(** X19.  A plugin argument that has no key raises [AttributeError], and the
    base method is not called: a truthy plain value or a dictionary, and a
    plugin instance whose [plugin_config()] is [None].  An error raised by
    [plugin_config()] is passed on. *)
Theorem get_setting_definition_errors (R : Type)
        (super_get_setting_definition : string -> gmap string kwval -> M R)
        (key : string) (kwargs : gmap string kwval) (s : State) :
  kwargs !! "settings" = None ->
  let get := PluginSetting.get_setting_definition super_get_setting_definition
               plugin_config key kwargs s in
  (forall v, kwargs !! "plugin" = Some (KwVal v) -> py_truthy v = true ->
     get = (Raise AttributeError, s))
  /\ (forall d, kwargs !! "plugin" = Some (KwSettings d) -> d <> ∅ ->
        get = (Raise AttributeError, s))
  /\ (forall p w', kwargs !! "plugin" = Some (KwPlugin p) ->
        plugin_config p (world s) = (Return None, w') ->
        get = (Raise AttributeError, {| world := w'; calls := calls s |}))
  /\ (forall p e w', kwargs !! "plugin" = Some (KwPlugin p) ->
        plugin_config p (world s) = (Raise e, w') ->
        get = (Raise e, {| world := w'; calls := calls s |})).
Proof.
  intros Hset get. subst get. unfold PluginSetting.get_setting_definition.
  rewrite Hset. repeat split.
  - intros v -> Hv. cbn [default from_option id kw_truthy]. rewrite Hv. reflexivity.
  - intros d -> Hd. cbn [default from_option id kw_truthy].
    rewrite bool_decide_eq_false_2 by assumption. reflexivity.
  - intros p w' -> Hc. cbn [default from_option id kw_truthy].
    rewrite !M_bind_run. unfold lift. rewrite Hc. reflexivity.
  - intros p e w' -> Hc. cbn [default from_option id kw_truthy].
    rewrite !M_bind_run. unfold lift. rewrite Hc. reflexivity.
Qed.

End more_get_setting_definition.

Lemma get_setting_definition_forwarding_witness :
  (exists e s',
      forall (R : Type) (sup : string -> gmap string kwval -> M R),
        PluginSetting.get_setting_definition sup demo_plugin_config "API_KEY"
          {["plugin" := KwPlugin demo_plugin; "user" := KwVal (PyInt 7)]} demo_state
        = (Raise e, s'))
  \/ (exists kwargs' s',
         (forall (R : Type) (sup : string -> gmap string kwval -> M R),
             PluginSetting.get_setting_definition sup demo_plugin_config "API_KEY"
               {["plugin" := KwPlugin demo_plugin; "user" := KwVal (PyInt 7)]} demo_state
             = sup "API_KEY" kwargs' s')
         /\ kwargs' !! "plugin" = None
         /\ (forall k, k <> "plugin" -> k <> "settings" ->
               kwargs' !! k
               = ({["plugin" := KwPlugin demo_plugin; "user" := KwVal (PyInt 7)]}
                    : gmap string kwval) !! k)
         /\ calls s' = calls demo_state).
Proof.
  apply (get_setting_definition_forwarding demo_plugin_config "API_KEY"
           {["plugin" := KwPlugin demo_plugin; "user" := KwVal (PyInt 7)]} demo_state).
  vm_compute. reflexivity.
Defined.

Lemma get_setting_definition_errors_witness :
  PluginSetting.get_setting_definition demo_base_definition demo_plugin_config
    "API_KEY" {["plugin" := KwVal (PyStr "sample")]} demo_state
  = (Raise AttributeError, demo_state).
Proof.
  assert (Hset : ({["plugin" := KwVal (PyStr "sample")]} : gmap string kwval)
                   !! "settings" = None) by (vm_compute; reflexivity).
  destruct (get_setting_definition_errors demo_plugin_config (option SettingDef)
              demo_base_definition "API_KEY"
              {["plugin" := KwVal (PyStr "sample")]} demo_state Hset) as [Hval _].
  apply (Hval (PyStr "sample")).
  - vm_compute. reflexivity.
  - reflexivity.
Defined.

(** ** [GenericSettingClassMixin] *)

Section mixin_properties.

Context {Self R : Type}.
Variable getattr : Self -> string -> attr_read kwval.
Variable key : Self -> string.
Variable super_clean : Self -> gmap string kwval -> M unit.
Variable super_is_bool : Self -> gmap string kwval -> M pyval.
Variable classmethod : string -> gmap string kwval -> M R.

(** X20.  When the reference cannot be read, nothing else happens: a class that
    leaves [REFERENCE_NAME] at [None] gets a [TypeError] from every method
    of the mixin, and an attribute whose read raises gets that error; the
    methods next in line are not called. *)
Theorem mixin_reference_unreadable (REFERENCE_NAME : option string) (self : Self)
        (kwargs : gmap string kwval) (s : State) (e : exn) :
  (REFERENCE_NAME = None /\ e = TypeError)
  \/ (exists n, REFERENCE_NAME = Some n /\ getattr self n = AttrRaises e) ->
  GenericSettingClassMixin._get_reference REFERENCE_NAME getattr self s = (Raise e, s)
  /\ GenericSettingClassMixin.clean REFERENCE_NAME getattr super_clean self kwargs s
     = (Raise e, s)
  /\ GenericSettingClassMixin.is_bool REFERENCE_NAME getattr super_is_bool self kwargs s
     = (Raise e, s)
  /\ GenericSettingClassMixin.name REFERENCE_NAME getattr key classmethod self s
     = (Raise e, s)
  /\ GenericSettingClassMixin.default_value REFERENCE_NAME getattr key classmethod self s
     = (Raise e, s)
  /\ GenericSettingClassMixin.description REFERENCE_NAME getattr key classmethod self s
     = (Raise e, s)
  /\ GenericSettingClassMixin.units REFERENCE_NAME getattr key classmethod self s
     = (Raise e, s)
  /\ GenericSettingClassMixin.choices REFERENCE_NAME getattr key classmethod self s
     = (Raise e, s).
Proof.
  intros H.
  assert (Hread : GenericSettingClassMixin.read_reference REFERENCE_NAME getattr self s
                  = (Raise e, s)).
  { unfold GenericSettingClassMixin.read_reference.
    destruct H as [[-> ->]|(n & -> & ->)]; reflexivity. }
  unfold GenericSettingClassMixin.name, GenericSettingClassMixin.choices,
    GenericSettingClassMixin.default_value, GenericSettingClassMixin.description,
    GenericSettingClassMixin.units,
    GenericSettingClassMixin.clean, GenericSettingClassMixin.is_bool,
    GenericSettingClassMixin._get_reference.
  rewrite !M_bind_run, Hread. repeat split; reflexivity.
Qed.

(** X21.  [clean] and [is_bool] pass on the instance's own reference, whatever
    the caller gave under that name, and pass on the other keyword
    arguments as they are. *)
Theorem mixin_overrides_reference (n : string) (self : Self) (v given : kwval)
        (kwargs : gmap string kwval) (s : State) :
  getattr self n = Attr v ->
  GenericSettingClassMixin.clean (Some n) getattr super_clean self
    (<[n := given]> kwargs) s
  = super_clean self (<[n := v]> kwargs) s
  /\ GenericSettingClassMixin.is_bool (Some n) getattr super_is_bool self
       (<[n := given]> kwargs) s
     = super_is_bool self (<[n := v]> kwargs) s.
Proof.
  intros Hv. unfold GenericSettingClassMixin.clean, GenericSettingClassMixin.is_bool.
  rewrite !M_bind_run. unfold GenericSettingClassMixin.read_reference. rewrite Hv.
  cbn [fst snd]. now rewrite insert_insert_eq.
Qed.

End mixin_properties.

Lemma mixin_reference_unreadable_witness :
  GenericSettingClassMixin._get_reference None PluginSettingInstance.getattr
    demo_setting demo_state = (Raise TypeError, demo_state)
  /\ GenericSettingClassMixin.clean None PluginSettingInstance.getattr
       demo_super_clean demo_setting ∅ demo_state = (Raise TypeError, demo_state)
  /\ GenericSettingClassMixin.is_bool None PluginSettingInstance.getattr
       demo_super_is_bool demo_setting ∅ demo_state
     = (Raise TypeError, demo_state)
  /\ GenericSettingClassMixin.name None PluginSettingInstance.getattr
       PluginSettingInstance.key demo_base_definition demo_setting demo_state
     = (Raise TypeError, demo_state)
  /\ GenericSettingClassMixin.default_value None PluginSettingInstance.getattr
       PluginSettingInstance.key demo_base_definition demo_setting demo_state
     = (Raise TypeError, demo_state)
  /\ GenericSettingClassMixin.description None PluginSettingInstance.getattr
       PluginSettingInstance.key demo_base_definition demo_setting demo_state
     = (Raise TypeError, demo_state)
  /\ GenericSettingClassMixin.units None PluginSettingInstance.getattr
       PluginSettingInstance.key demo_base_definition demo_setting demo_state
     = (Raise TypeError, demo_state)
  /\ GenericSettingClassMixin.choices None PluginSettingInstance.getattr
       PluginSettingInstance.key demo_base_definition demo_setting demo_state
     = (Raise TypeError, demo_state).
Proof.
  apply (mixin_reference_unreadable PluginSettingInstance.getattr
           PluginSettingInstance.key demo_super_clean
           demo_super_is_bool demo_base_definition
           None demo_setting ∅ demo_state TypeError).
  left. split; reflexivity.
Defined.

Lemma mixin_overrides_reference_witness :
  GenericSettingClassMixin.clean (Some "plugin") PluginSettingInstance.getattr
    demo_super_clean demo_setting
    (<["plugin" := KwVal PyNone]> ∅) demo_state
  = demo_super_clean demo_setting
      (<["plugin" := KwPluginConfig demo_config]> ∅) demo_state
  /\ GenericSettingClassMixin.is_bool (Some "plugin") PluginSettingInstance.getattr
       demo_super_is_bool demo_setting
       (<["plugin" := KwVal PyNone]> ∅) demo_state
     = demo_super_is_bool demo_setting
         (<["plugin" := KwPluginConfig demo_config]> ∅) demo_state.
Proof.
  apply (mixin_overrides_reference PluginSettingInstance.getattr
           demo_super_clean demo_super_is_bool
           "plugin" demo_setting (KwPluginConfig demo_config) (KwVal PyNone) ∅
           demo_state).
  reflexivity.
Defined.

(** X22.  The properties of a setting ([name], [description], ...) look the
    definition up with the instance's reference.  For a [PluginSetting]
    this is its plugin configuration, so that the definitions are those the
    registry holds for that plugin, and the base method receives
    [settings] and nothing else. *)
Theorem setting_definition_by_reference (R : Type)
        (super_get_setting_definition : string -> gmap string kwval -> M R)
        (plugin_config : Plugin -> World -> result (option PluginConfig.t) * World)
        (self : PluginSettingInstance.t) (s : State) :
  (kwargs ← PluginSettingInstance._get_reference self;
   PluginSetting.get_setting_definition super_get_setting_definition plugin_config
     (PluginSettingInstance.key self) kwargs) s
  = super_get_setting_definition (PluginSettingInstance.key self)
      {[ "settings" :=
           KwSettings
             (default ∅ (k ← PluginConfig.key (PluginSettingInstance.plugin self);
                         mixins_settings (registry (world s)) !! k)) ]} s.
Proof.
  rewrite M_bind_run. unfold PluginSettingInstance._get_reference,
    GenericSettingClassMixin._get_reference.
  rewrite M_bind_run. unfold GenericSettingClassMixin.read_reference.
  change (PluginSettingInstance.getattr self PluginSetting.REFERENCE_NAME)
    with (Attr (KwPluginConfig (PluginSettingInstance.plugin self)) : attr_read kwval).
  cbn [mret M_ret fst snd].
  unfold PluginSetting.get_setting_definition, PluginSetting.REFERENCE_NAME.
  rewrite lookup_singleton_ne by discriminate.
  rewrite lookup_singleton_eq. cbn [default from_option id kw_truthy].
  rewrite !M_bind_run. cbn [mret M_ret read_key].
  rewrite M_bind_run. unfold get_registry.
  now rewrite delete_singleton_eq, insert_empty.
Qed.
